(** * trzsz-go: a shallow embedding of the receiver-side utilities

    The development follows the Go sources of the [trzsz] package:
    the helpers of the utility file (size parsing, the zlib+base64 frame
    codec, [TrzszError], the path walker, [getNewName], [trimVT100]) and the
    entry point of [trz] ([TrzMain], [recvFiles]).

    Conventions.
    - A Go [[]byte] is a [list byte]; a Go [string] is a [string] (Go strings
      are byte sequences, [string(b)] and [[]byte(s)] are the two
      conversions of the standard library of Rocq).
    - [int64] arithmetic is done on [Z] with the wrap-around written out.
    - Fallible functions return [error + A] ([inl] is the Go [err != nil]).
    - Calls into the operating system, the Go runtime and the parts of the
      package that are outside the files above are parameters, grouped in
      three classes of operations: [Zlib] for compress/zlib, [FileSystem]
      for the calls on files, [Process] for what one run of the program
      receives (command line, platform, clock, terminal, peer). *)

From Stdlib Require Import ZArith NArith Lia List Bool.
From Stdlib.Strings Require Import String Ascii Byte.
From Stdlib Require Import DecimalString.
From stdpp Require Import base strings gmap.
Import ListNotations.

Local Open Scope string_scope.
Local Open Scope list_scope.

(** ** Bytes and strings *)

Definition bytes : Type := list byte.

(** [[]byte(s)] and [string(b)]. *)
Definition bytes_of_string (s : string) : bytes := list_byte_of_string s.
Definition string_of_bytes (b : bytes) : string := string_of_list_byte b.

Definition byte_eqb (a b : byte) : bool := Byte.eqb a b.

(** [strconv.Itoa] on a natural number. *)
Definition itoa (n : nat) : string := NilEmpty.string_of_uint (Nat.to_uint n).

(** ** VT100 trimming ([isVT100End], [trimVT100]) *)

Definition byte_le (a b : byte) : bool := (Byte.to_N a <=? Byte.to_N b)%N.

Definition isVT100End (b : byte) : bool :=
  if byte_le "a" b && byte_le b "z" then true
  else if byte_le "A" b && byte_le b "Z" then true
  else false.

Definition ESC : byte := x1b.




(** No byte of [mid] ends an escape sequence. *)
Definition noEnd (mid : bytes) : Prop :=
  Forall (fun c => isVT100End c = false) mid.

(** ** Errors

    [TrzszError] is the error type of the package; the other constructors
    stand for the error values of the Go libraries the code receives. *)

Record TrzszError : Type := mkTrzszError {
  message : string;
  errType : string;
  trace : bool
}.

Inductive Errno : Type := ENOENT | EACCES | ENOTDIR | ELOOP | EIO.

Definition Errno_Error (e : Errno) : string :=
  match e with
  | ENOENT => "no such file or directory"
  | EACCES => "permission denied"
  | ENOTDIR => "not a directory"
  | ELOOP => "too many levels of symbolic links"
  | EIO => "input/output error"
  end.

Inductive error : Type :=
| CorruptInputError (pos : nat)                  (* encoding/base64 *)
| PathError (op path : string) (errno : Errno)   (* os, path/filepath *)
| LibError (msg : string)                        (* compress/zlib, fmt, strconv, os/exec, term *)
| ErrTrzsz (e : TrzszError).

(** The [Error()] method. *)
Definition error_Error (e : error) : string :=
  match e with
  | CorruptInputError pos => "illegal base64 data at input byte " +:+ itoa pos
  | PathError op path errno => op +:+ " " +:+ path +:+ ": " +:+ Errno_Error errno
  | LibError msg => msg
  | ErrTrzsz e => message e
  end.

(** [errors.Is(err, os.ErrNotExist)]. *)
Definition is_ErrNotExist (e : error) : bool :=
  match e with
  | PathError _ _ ENOENT => true
  | _ => false
  end.

(** ** encoding/base64, [StdEncoding]

    The alphabet and the padding character of RFC 4648; the encoder and the
    decoder work on 24-bit groups assembled with shifts and ors, as
    [Encoding.Encode] and [Encoding.decodeQuantum] do. *)

Module Base64.

Definition encodeStd : bytes :=
  bytes_of_string
    "ABCDEFGHIJKLMNOPQRSTUVWXYZabcdefghijklmnopqrstuvwxyz0123456789+/".

Definition padChar : byte := "="%byte.

Definition byte_to_Z (b : byte) : Z := Z.of_N (Byte.to_N b).

(** The conversion [byte(v)] of an unsigned integer: the low eight bits. *)
Definition byte_of_Z (v : Z) : byte :=
  match Byte.of_N (Z.to_N (Z.land v 255)) with
  | Some b => b
  | None => x00
  end.

(** [enc.encode[v]] for a six-bit [v]. *)
Definition encode_char (v : Z) : byte := nth (Z.to_nat v) encodeStd x00.

Fixpoint index_of (c : byte) (l : bytes) (i : Z) : option Z :=
  match l with
  | [] => None
  | x :: l' => if byte_eqb c x then Some i else index_of c l' (i + 1)%Z
  end.

(** [enc.decodeMap[c]]: [None] stands for the entry [0xFF]. *)
Definition decodeMap (c : byte) : option Z := index_of c encodeStd 0%Z.

Local Open Scope Z_scope.

Fixpoint Encode (src : bytes) : bytes :=
  match src with
  | a :: b :: c :: rest =>
      let val := Z.lor (Z.lor (Z.shiftl (byte_to_Z a) 16)
                              (Z.shiftl (byte_to_Z b) 8)) (byte_to_Z c) in
      encode_char (Z.land (Z.shiftr val 18) 63)
      :: encode_char (Z.land (Z.shiftr val 12) 63)
      :: encode_char (Z.land (Z.shiftr val 6) 63)
      :: encode_char (Z.land val 63)
      :: Encode rest
  | [a; b] =>
      let val := Z.lor (Z.shiftl (byte_to_Z a) 16) (Z.shiftl (byte_to_Z b) 8) in
      [encode_char (Z.land (Z.shiftr val 18) 63);
       encode_char (Z.land (Z.shiftr val 12) 63);
       encode_char (Z.land (Z.shiftr val 6) 63);
       padChar]
  | [a] =>
      let val := Z.shiftl (byte_to_Z a) 16 in
      [encode_char (Z.land (Z.shiftr val 18) 63);
       encode_char (Z.land (Z.shiftr val 12) 63);
       padChar; padChar]
  | [] => []
  end.

Definition EncodeToString (src : bytes) : string :=
  string_of_bytes (Encode src).

Definition isNewline (c : byte) : bool :=
  byte_eqb c "010"%byte || byte_eqb c "013"%byte.

(** The inner loops that skip over newlines: the rest of the input and the
    number of bytes skipped. *)
Fixpoint skipNewlines (src : bytes) : bytes * nat :=
  match src with
  | c :: rest =>
      if isNewline c then let '(r, n) := skipNewlines rest in (r, S n)
      else (src, 0%nat)
  | [] => ([], 0%nat)
  end.

(** The three bytes of a 24-bit group of four six-bit values; [dlen] values
    were read, [dlen - 1] bytes are produced. *)
Definition quantum (dbuf : list Z) (dlen : nat) : bytes :=
  let d i := nth i dbuf 0 in
  let val := Z.lor (Z.lor (Z.lor (Z.shiftl (d 0%nat) 18) (Z.shiftl (d 1%nat) 12))
                          (Z.shiftl (d 2%nat) 6)) (d 3%nat) in
  firstn (dlen - 1)
    [byte_of_Z (Z.shiftr val 16); byte_of_Z (Z.shiftr val 8); byte_of_Z val].

(** [Encoding.Decode]: the loop over [decodeQuantum].  [si] is the index of
    the next input byte, [dbuf] holds the [j = length dbuf] six-bit values
    of the group being read, [dst] the bytes decoded so far.  The 8- and
    4-byte fast paths of the library decode the same groups and fall back to
    [decodeQuantum] on any byte outside the alphabet. *)
Fixpoint Decode (src : bytes) (si : nat) (dbuf : list Z) (dst : bytes)
  : error + bytes :=
  let j := length dbuf in
  match src with
  | [] =>
      match j with
      | O => inr dst
      | _ => inl (CorruptInputError (si - j))
      end
  | c :: rest =>
      match decodeMap c with
      | Some out =>
          if (j =? 3)%nat
          then Decode rest (S si) [] (dst ++ quantum (dbuf ++ [out]) 4)
          else Decode rest (S si) (dbuf ++ [out]) dst
      | None =>
          if isNewline c then Decode rest (S si) dbuf dst
          else if negb (byte_eqb c padChar) then inl (CorruptInputError si)
          else
            (* the end has been reached and there is padding *)
            match j with
            | 0%nat | 1%nat => inl (CorruptInputError si)
            | 2%nat =>
                let '(r1, n1) := skipNewlines rest in
                match r1 with
                | [] => inl (CorruptInputError (length src + si))
                | c2 :: r2 =>
                    if negb (byte_eqb c2 padChar)
                    then inl (CorruptInputError (si + n1))
                    else
                      let '(r3, n3) := skipNewlines r2 in
                      match r3 with
                      | [] => inr (dst ++ quantum dbuf 2)
                      | _ => inl (CorruptInputError (si + n1 + n3 + 2))
                      end
                end
            | _ =>
                let '(r3, n3) := skipNewlines rest in
                match r3 with
                | [] => inr (dst ++ quantum dbuf 3)
                | _ => inl (CorruptInputError (si + n3 + 1))
                end
            end
      end
  end.

Definition DecodeString (s : string) : error + bytes :=
  Decode (bytes_of_string s) 0 [] [].

(** The six-bit value number [i], from the left, of a 24-bit group. *)
Definition sextet (val : Z) (i : Z) : Z :=
  Z.land (Z.shiftr val (18 - 6 * i)) 63.

End Base64.

(** ** compress/zlib

    The compressor and the decompressor of the Go library are an interface
    of the model: [zlib_compress b] is the content of the buffer after
    [zlib.NewWriter], [Write b] and [Close]; [zlib_NewReader] reads the
    header of a stream; [zlib_ReadAll z] is what [io.Copy] reads from the
    reader [z] up to the end of the stream. *)

Class Zlib : Type := {
  zreader : Type;
  zlib_compress : bytes -> bytes;
  zlib_NewReader : bytes -> error + zreader;
  zlib_ReadAll : zreader -> error + bytes
}.

(** The contract of the library: reading a stream written by the compressor
    succeeds and gives the bytes that were written. *)
Definition zlib_round_trip `{ZL : Zlib} : Prop :=
  forall b : bytes,
    exists z, zlib_NewReader (zlib_compress b) = inr z /\ zlib_ReadAll z = inr b.

(** ** The frame codec ([encodeBytes], [encodeString], [decodeString]) *)

Section Codec.
Context `{ZL : Zlib}.

Definition encodeBytes (buf : bytes) : string :=
  let b := zlib_compress buf in
  Base64.EncodeToString b.

Definition encodeString (str : string) : string :=
  encodeBytes (bytes_of_string str).

Definition decodeString (str : string) : error + bytes :=
  match Base64.DecodeString str with
  | inl err => inl err
  | inr b =>
      match zlib_NewReader b with
      | inl err => inl err
      | inr z =>
          match zlib_ReadAll z with
          | inl err => inl err
          | inr buf => inr buf
          end
      end
  end.

(** ** [TrzszError] *)

Definition LF : string := String "010"%char EmptyString.

Definition isTraceBack (e : TrzszError) : bool :=
  if String.eqb (errType e) "fail" || String.eqb (errType e) "EXIT"
  then false
  else trace e.

Definition isRemoteExit (e : TrzszError) : bool :=
  String.eqb (errType e) "EXIT".

Definition isRemoteFail (e : TrzszError) : bool :=
  String.eqb (errType e) "fail" || String.eqb (errType e) "FAIL".

(** [stack] is the value of [debug.Stack()] at the call. *)
Definition NewTrzszError (stack : string)
    (message errType : string) (trace : bool) : TrzszError :=
  let message1 :=
    if String.eqb errType "fail" || String.eqb errType "FAIL"
       || String.eqb errType "EXIT"
    then
      match decodeString message with
      | inl err => "decode [" +:+ message +:+ "] error: " +:+ error_Error err
      | inr msg => string_of_bytes msg
      end
    else if (0 <? String.length errType)%nat
    then "[TrzszError] " +:+ errType +:+ ": " +:+ message
    else message in
  let err := mkTrzszError message1 errType trace in
  if isTraceBack err
  then mkTrzszError (message1 +:+ LF +:+ stack) errType trace
  else err.

(** The message carried by a frame of type [EXIT], [fail] or [FAIL]. *)
Definition decodedMessage (message : string) : string :=
  match decodeString message with
  | inl err => "decode [" +:+ message +:+ "] error: " +:+ error_Error err
  | inr msg => string_of_bytes msg
  end.

(** The condition under which the local stack is added. *)
Definition traceAppended (errType : string) (trace : bool) : bool :=
  trace && negb (String.eqb errType "fail") && negb (String.eqb errType "EXIT").

(** [newTrzszError] passes [trace = false]: [debug.Stack] is not called. *)
Definition newTrzszError (message : string) : TrzszError :=
  NewTrzszError "" message "" false.

End Codec.

(** ** The operating system

    One run of the program sees the file system through these calls; the
    file system does not change while a function of this file runs.
    [os_Stat] follows symbolic links; [os_Readdir path] stands for
    [os.Open(path)] followed by [Readdir(-1)] on the file and gives the names
    of the entries, the only part of each entry the walker uses;
    [os_Open] is the error of [os.Open], if any. *)

Inductive FileMode : Type := ModeDir | ModeRegular | ModeOther.

Record FileInfo : Type := mkFileInfo {
  Name : string;
  Mode : FileMode
}.

Definition IsDir (info : FileInfo) : bool :=
  match Mode info with ModeDir => true | _ => false end.


Class FileSystem : Type := {
  os_Stat : string -> error + FileInfo;
  os_Open : string -> option error;
  os_Readdir : string -> error + list string;
  filepath_Abs : string -> error + string;
  filepath_Join : string -> string -> string;
  filepath_EvalSymlinks : string -> error + string;
  syscallAccessWok : string -> option error;
  syscallAccessRok : string -> option error
}.

Section Files.
Context `{ZL : Zlib} `{FS : FileSystem}.

(** *** [checkPathWritable] *)

Definition checkPathWritable (path : string) : option error :=
  match os_Stat path with
  | inl err =>
      if is_ErrNotExist err
      then Some (ErrTrzsz (newTrzszError ("No such directory: " +:+ path)))
      else Some err
  | inr info =>
      if negb (IsDir info)
      then Some (ErrTrzsz (newTrzszError ("Not a directory: " +:+ path)))
      else
        match syscallAccessWok path with
        | Some _ =>
            Some (ErrTrzsz (newTrzszError ("No permission to write: " +:+ path)))
        | None => None
        end
  end.

(** *** The path walker ([checkPathReadable], [checkPathsReadable]) *)









(** *** [getNewName] *)

Definition notExist (path : string) : bool :=
  match os_Stat path with
  | inl err => is_ErrNotExist err
  | inr _ => false
  end.

(** The candidate number [i]: [fmt.Sprintf("%s.%d", name, i)]. *)
Definition candidate (name : string) (i : nat) : string :=
  name +:+ "." +:+ itoa i.

Definition failToAssign : error :=
  ErrTrzsz (newTrzszError "Fail to assign new file name").

(** [n] iterations of the loop of [getNewName] starting at index [i]. *)
Fixpoint getNewName_loop (path name : string) (n i : nat) : error + string :=
  match n with
  | O => inl failToAssign
  | S n' =>
      let newName := candidate name i in
      if notExist (filepath_Join path newName) then inr newName
      else getNewName_loop path name n' (S i)
  end.

Definition getNewName (path name : string) : error + string :=
  if notExist (filepath_Join path name) then inr name
  else getNewName_loop path name 1000 0.

End Files.

(** ** strconv and strings

    The library functions the code calls, for the inputs it can pass. *)

Definition DQUOTE : string := String (Ascii.ascii_of_nat 34) EmptyString.

Definition isDigit (c : byte) : bool := byte_le "0" c && byte_le c "9".

Definition maxInt64 : Z := 9223372036854775807.
Definition minInt64 : Z := -9223372036854775808.

(** The value of an [int64] expression whose unbounded value is [z]. *)
Definition wrap64 (z : Z) : Z :=
  ((z + 9223372036854775808) mod 18446744073709551616 - 9223372036854775808)%Z.

Definition digitsValue (ds : bytes) : Z :=
  fold_left (fun acc c => (acc * 10 + (Base64.byte_to_Z c - 48))%Z) ds 0%Z.

Definition syntaxError (fn s : string) : error :=
  LibError ("strconv." +:+ fn +:+ ": parsing " +:+ DQUOTE +:+ s +:+ DQUOTE
            +:+ ": invalid syntax").

Definition rangeError (fn s : string) : error :=
  LibError ("strconv." +:+ fn +:+ ": parsing " +:+ DQUOTE +:+ s +:+ DQUOTE
            +:+ ": value out of range").

(** [strconv.ParseInt(s, 10, 64)], reported under the name [fn]: the value
    and the error, the value being 0 on a syntax error and the nearest bound
    on a range error. *)
Definition parseInt64 (fn : string) (s : string) : Z * option error :=
  let b := bytes_of_string s in
  let '(neg, ds) :=
    match b with
    | "+"%byte :: ds => (false, ds)
    | "-"%byte :: ds => (true, ds)
    | _ => (false, b)
    end in
  match ds with
  | [] => (0%Z, Some (syntaxError fn s))
  | _ =>
      if negb (forallb isDigit ds) then (0%Z, Some (syntaxError fn s))
      else
        let v := digitsValue ds in
        if neg then
          if (v >? 9223372036854775808)%Z then (minInt64, Some (rangeError fn s))
          else ((- v)%Z, None)
        else
          if (v >? maxInt64)%Z then (maxInt64, Some (rangeError fn s))
          else (v, None)
  end.

Definition ParseInt (s : string) : Z * option error := parseInt64 "ParseInt" s.
Definition Atoi (s : string) : Z * option error := parseInt64 "Atoi" s.

(** [strconv.FormatInt(i, 10)]. *)
Definition FormatInt (i : Z) : string := NilZero.string_of_int (Z.to_int i).

(** [strings.ToLower] on ASCII letters and on the Kelvin sign U+212A (bytes
    E2 84 AA in UTF-8), whose lower case is [k]; the other non-ASCII runes
    that have a lower case do not reach the calls of this file. *)
Definition lowerByte (c : byte) : byte :=
  if byte_le "A" c && byte_le c "Z"
  then Base64.byte_of_Z (Base64.byte_to_Z c + 32)
  else c.

Fixpoint ToLower_bytes (s : bytes) : bytes :=
  match s with
  | xe2 :: x84 :: xaa :: s' => "k"%byte :: ToLower_bytes s'
  | c :: s' => lowerByte c :: ToLower_bytes s'
  | [] => []
  end.

Definition ToLower (s : string) : string :=
  string_of_bytes (ToLower_bytes (bytes_of_string s)).

(** [strings.TrimSpace], for the ASCII white space. *)
Definition isSpace (c : byte) : bool :=
  existsb (byte_eqb c) ["009"; "010"; "011"; "012"; "013"; " "]%byte.

Fixpoint trimLeft (s : bytes) : bytes :=
  match s with
  | c :: s' => if isSpace c then trimLeft s' else s
  | [] => []
  end.

Definition TrimSpace (s : string) : string :=
  string_of_bytes (rev (trimLeft (rev (trimLeft (bytes_of_string s))))).

(** [strings.Split(s, sep)] for a one-byte separator. *)
Fixpoint Split_bytes (s : bytes) (sep : byte) (cur : bytes) : list string :=
  match s with
  | [] => [string_of_bytes cur]
  | c :: s' =>
      if byte_eqb c sep then string_of_bytes cur :: Split_bytes s' sep []
      else Split_bytes s' sep (cur ++ [c])
  end.

Definition Split (s : string) (sep : byte) : list string :=
  Split_bytes (bytes_of_string s) sep [].

(** [strings.Join(elems, sep)]. *)
Fixpoint Join (elems : list string) (sep : string) : string :=
  match elems with
  | [] => ""
  | [e] => e
  | e :: elems' => e +:+ sep +:+ Join elems' sep
  end.

(** ** [BufferSize.UnmarshalText] *)

Record BufferSize : Type := mkBufferSize { Size : Z }.

Fixpoint spanDigits (s : bytes) : bytes * bytes :=
  match s with
  | c :: s' =>
      if isDigit c then let '(ds, r) := spanDigits s' in (c :: ds, r)
      else ([], s)
  | [] => ([], [])
  end.

Definition upperByte (c : byte) : byte :=
  Base64.byte_of_Z (Base64.byte_to_Z c - 32).

(** A whole-string match of the lower-case letters [pat] under the flag
    [(?i)]: a letter matches itself, its upper case and, for [k], the Kelvin
    sign, the third rune of the case orbit of [k]. *)
Fixpoint matchFold (pat : bytes) (s : bytes) : bool :=
  match pat with
  | [] => match s with [] => true | _ => false end
  | l :: pat' =>
      match s with
      | [] => false
      | c :: s' =>
          if byte_eqb c l || byte_eqb c (upperByte l) then matchFold pat' s'
          else if byte_eqb l "k"
          then match s with
               | xe2 :: x84 :: xaa :: s'' => matchFold pat' s''
               | _ => false
               end
          else false
      end
  end.

Definition sizeUnits : list bytes :=
  map bytes_of_string ["b"; "k"; "m"; "g"; "kb"; "mb"; "gb"].

(** [sizeRegexp.FindStringSubmatch(str)] for
    [(?i)^(\d+)(b|k|m|g|kb|mb|gb)?$]: [nil] when there is no match, else the
    whole match and the two groups. *)
Definition sizeRegexp_FindStringSubmatch (str : string) : list string :=
  let '(ds, rest) := spanDigits (bytes_of_string str) in
  match ds with
  | [] => []
  | _ =>
      match rest with
      | [] => [str; string_of_bytes ds; ""]
      | _ =>
          if existsb (fun u => matchFold u rest) sizeUnits
          then [str; string_of_bytes ds; string_of_bytes rest]
          else []
      end
  end.

(** The receiver [b] is updated in place: the result is its new value and
    the error. *)
Definition UnmarshalText (b : BufferSize) (buf : bytes)
  : BufferSize * option error :=
  let str := string_of_bytes buf in
  let match_ := sizeRegexp_FindStringSubmatch str in
  if (length match_ <? 2)%nat then
    (b, Some (LibError ("invalid size " +:+ str)))
  else
    let '(sizeValue, err) := ParseInt (nth 1 match_ "") in
    match err with
    | Some _ => (b, Some (LibError ("invalid size " +:+ str)))
    | None =>
        let scaled : option Z :=
          if (2 <? length match_)%nat then
            let unitSuffix := ToLower (nth 2 match_ "") in
            if (String.length unitSuffix =? 0)%nat || String.eqb unitSuffix "b"
            then Some sizeValue
            else if String.eqb unitSuffix "k" || String.eqb unitSuffix "kb"
            then Some (wrap64 (sizeValue * 1024))
            else if String.eqb unitSuffix "m" || String.eqb unitSuffix "mb"
            then Some (wrap64 (sizeValue * (1024 * 1024)))
            else if String.eqb unitSuffix "g" || String.eqb unitSuffix "gb"
            then Some (wrap64 (sizeValue * (1024 * 1024 * 1024)))
            else None
          else Some sizeValue in
        match scaled with
        | None => (b, Some (LibError ("invalid size " +:+ str)))
        | Some sizeValue =>
            if (sizeValue <? 1024)%Z then (b, Some (LibError "less than 1K"))
            else if (sizeValue >? 1024 * 1024 * 1024)%Z
            then (b, Some (LibError "greater than 1G"))
            else (mkBufferSize sizeValue, None)
        end
    end.

(** The suffixes of a size, in ASCII, each with its factor: [b] is 1, [k]
    and [kb] are 1024, [m] and [mb] are 1024^2, [g] and [gb] are 1024^3, in
    either case. *)
Definition sizeSuffixes : list (string * Z) :=
  [(""%string, 1); ("b"%string, 1); ("B"%string, 1)]%Z
  ++ map (fun u => (u, 1024%Z)) ["k"; "K"; "kb"; "kB"; "Kb"; "KB"]
  ++ map (fun u => (u, (1024 * 1024)%Z)) ["m"; "M"; "mb"; "mB"; "Mb"; "MB"]
  ++ map (fun u => (u, (1024 * 1024 * 1024)%Z)) ["g"; "G"; "gb"; "gB"; "Gb"; "GB"].

(** ** The process and the transfer

    What one run of [trz] receives from outside the files modelled here:
    the parsed command line, the platform, the clock, the answers of the
    [tmux] and [stty] commands, of the terminal and of the methods of
    [TrzszTransfer]. *)

Record Args : Type := mkArgs {
  Quiet : bool;
  Overwrite : bool;
  Binary : bool;
  Escape : bool;
  Directory : bool;
  Bufsize : BufferSize;
  Timeout : Z
}.

Record TrzArgs : Type := mkTrzArgs {
  TrzArgs_Args : Args;
  Path : string
}.

Definition set_Binary (b : bool) (args : TrzArgs) : TrzArgs :=
  let a := TrzArgs_Args args in
  mkTrzArgs (mkArgs (Quiet a) (Overwrite a) b (Escape a) (Directory a)
                    (Bufsize a) (Timeout a)) (Path args).

Definition set_Path (p : string) (args : TrzArgs) : TrzArgs :=
  mkTrzArgs (TrzArgs_Args args) p.

(** Modelled from the spec: the struct [TransferAction] of the transfer
    engine, with the fields of the handshake object of section 3 (language
    tag, version, confirm, newline, protocol, support_binary,
    support_directory). *)
Record TransferAction : Type := mkTransferAction {
  Lang : string;
  Version : string;
  Confirm : bool;
  Newline : string;
  Protocol : Z;
  SupportBinary : bool;
  SupportDirectory : bool
}.

Inductive TmuxMode : Type := NoTmux | TmuxNormalMode | TmuxControlMode.

Definition TmuxMode_eqb (a b : TmuxMode) : bool :=
  match a, b with
  | NoTmux, NoTmux | TmuxNormalMode, TmuxNormalMode
  | TmuxControlMode, TmuxControlMode => true
  | _, _ => false
  end.

(** A [*os.File] used for output: [nil], the standard output, or the tty
    of the tmux client opened for writing. *)
Inductive File : Type := nilFile | os_Stdout | TtyFile (path : string).

(** The escape table built by [getEscapeChars]. *)
Definition EscapeChars : Type := list (bytes * bytes).

Class Process : Type := {
  (* the arguments filled in by [arg.MustParse] *)
  arg_MustParse : TrzArgs;
  (* [IsWindows()] and the constant [kTrzszVersion] *)
  isWindows : bool;
  kTrzszVersion : string;
  (* [time.Now().UnixMilli()] *)
  time_Now_UnixMilli : Z;
  (* whether [TMUX] is set, and the output of [tmux display-message] *)
  LookupEnv_TMUX : bool;
  tmux_display_message : error + bytes;
  (* the error of [os.OpenFile(tty, os.O_WRONLY, 0)], if any *)
  os_OpenFile_WRONLY : string -> option error;
  (* the output of [stty size] *)
  stty_size : error + bytes;
  (* the errors of [enableVirtualTerminal] and [term.MakeRaw], if any *)
  enableVirtualTerminal : option error;
  term_MakeRaw : option error;
  (* [getEscapeChars] and the results of the methods of the transfer *)
  getEscapeChars : bool -> EscapeChars;
  transfer_recvAction : error + TransferAction;
  transfer_sendConfig :
    Args -> TransferAction -> EscapeChars -> TmuxMode -> Z -> option error;
  transfer_recvFiles : string -> error + list string;
  transfer_recvExit : error + string
}.

(** What the program does to the outside, in order: its own writes to the
    standard output and error, the calls on the terminal, and the calls of
    the methods of the transfer, which do their own input and output. *)
Inductive Event : Type :=
| EStdout (s : string)
| EStdoutSync
| EStderr (s : string)
| EEnableVirtualTerminal
| ESetupConsoleOutput
| EResetVirtualTerminal
| EMakeRaw
| ETermRestore
| ENewTransfer (realStdout : File)
| EGoWrapStdinInput
| EHandleServerSignal
| ERecvAction
| ESendConfig (args : Args) (action : TransferAction)
    (escapeChars : EscapeChars) (tmuxMode : TmuxMode) (tmuxPaneWidth : Z)
| ETransferRecvFiles (path : string)
| ERecvExit
| EServerExit (msg : string)
| EServerError (err : error).

(** A function that returns or stops the program with a run-time panic. *)
Inductive outcome (A : Type) : Type :=
| Return (a : A)
| Panicked (msg : string).
Arguments Return {A} a.
Arguments Panicked {A} msg.

(** The monad of the entry point: the events so far are threaded through. *)
Definition M (A : Type) : Type := list Event -> A * list Event.

Definition ret {A : Type} (a : A) : M A := fun log => (a, log).

Definition bind {A B : Type} (m : M A) (k : A -> M B) : M B :=
  fun log => let '(a, log') := m log in k a log'.

Definition emit (e : Event) : M unit := fun log => (tt, log ++ [e]).

Declare Scope trz_scope.
Delimit Scope trz_scope with trz.
Notation "x <- m ;; k" := (bind m (fun x => k))
  (at level 100, m at next level, right associativity) : trz_scope.
Notation "m ;;; k" := (bind m (fun _ => k))
  (at level 100, right associativity) : trz_scope.

Section Trz.
Context `{ZL : Zlib} `{FS : FileSystem} `{PR : Process}.
Local Open Scope trz_scope.

(** [fmt.Fprintln(os.Stderr, err)]. *)
Definition Fprintln_Stderr (err : error) : M unit :=
  emit (EStderr (error_Error err +:+ LF)).

Definition WriteString_Stdout (s : string) : M unit := emit (EStdout s).

(** *** [checkTmux] *)

Definition checkTmux : outcome (TmuxMode * File * Z * option error) :=
  if negb LookupEnv_TMUX then Return (NoTmux, os_Stdout, (-1)%Z, None)
  else
    match tmux_display_message with
    | inl err => Return (NoTmux, nilFile, (-1)%Z, Some err)
    | inr out =>
        let output := TrimSpace (string_of_bytes out) in
        let tokens := Split output ":"%byte in
        if negb (length tokens =? 3)%nat then
          Return (NoTmux, nilFile, (-1)%Z,
                  Some (LibError ("tmux unexpect output: " +:+ output)))
        else
          let tmuxTty := nth 0 tokens "" in
          let controlMode := nth 1 tokens "" in
          let paneWidth := nth 2 tokens "" in
          if String.eqb controlMode "1"
          then Return (TmuxControlMode, os_Stdout, (-1)%Z, None)
          else
            match bytes_of_string tmuxTty with
            | [] => Panicked "runtime error: index out of range [0] with length 0"
            | c0 :: _ =>
                if negb (byte_eqb c0 "/")
                then Return (TmuxControlMode, os_Stdout, (-1)%Z, None)
                else if notExist tmuxTty
                then Return (TmuxControlMode, os_Stdout, (-1)%Z, None)
                else
                  match os_OpenFile_WRONLY tmuxTty with
                  | Some err => Return (NoTmux, nilFile, (-1)%Z, Some err)
                  | None =>
                      if (0 <? String.length paneWidth)%nat then
                        match Atoi paneWidth with
                        | (_, Some err) => Return (NoTmux, nilFile, (-1)%Z, Some err)
                        | (w, None) =>
                            Return (TmuxNormalMode, TtyFile tmuxTty, w, None)
                        end
                      else
                        Return (TmuxNormalMode, TtyFile tmuxTty, (-1)%Z, None)
                  end
            end
    end.

(** *** [getTerminalColumns] *)

Definition getTerminalColumns : Z :=
  match stty_size with
  | inl _ => 0%Z
  | inr out =>
      let output := TrimSpace (string_of_bytes out) in
      let tokens := Split output " "%byte in
      if negb (length tokens =? 2)%nat then 0%Z
      else fst (Atoi (nth 1 tokens ""))
  end.

Definition unsupportedDirectory : error :=
  ErrTrzsz (newTrzszError "The client doesn't support transfer directory").

(** *** [recvFiles]

    [args] is updated in place: the result is its final value and the
    error. *)
Definition recvFiles (args : TrzArgs) (tmuxMode : TmuxMode)
    (tmuxPaneWidth : Z) : M (TrzArgs * option error) :=
  emit ERecvAction ;;;
  match transfer_recvAction with
  | inl err => ret (args, Some err)
  | inr action =>
      if negb (Confirm action) then
        emit (EServerExit "Cancelled") ;;;
        ret (args, None)
      else
        (* check if the client doesn't support binary mode *)
        let args :=
          if Binary (TrzArgs_Args args) && negb (SupportBinary action)
          then set_Binary false args else args in
        (* check if the client doesn't support transfer directory *)
        if Directory (TrzArgs_Args args) && negb (SupportDirectory action) then
          ret (args, Some unsupportedDirectory)
        else
          let escapeChars := getEscapeChars (Escape (TrzArgs_Args args)) in
          emit (ESendConfig (TrzArgs_Args args) action escapeChars
                            tmuxMode tmuxPaneWidth) ;;;
          match transfer_sendConfig (TrzArgs_Args args) action escapeChars
                                    tmuxMode tmuxPaneWidth with
          | Some err => ret (args, Some err)
          | None =>
              emit (ETransferRecvFiles (Path args)) ;;;
              match transfer_recvFiles (Path args) with
              | inl err => ret (args, Some err)
              | inr localNames =>
                  emit ERecvExit ;;;
                  match transfer_recvExit with
                  | inl err => ret (args, Some err)
                  | inr _ =>
                      emit (EServerExit ("Received " +:+ Join localNames ", "
                                         +:+ " to " +:+ Path args)) ;;;
                      ret (args, None)
                  end
              end
          end
  end.

(** *** [TrzMain] *)

Definition CR : string := String "013"%char EmptyString.
Definition ESCs : string := String "027"%char EmptyString.
Definition BEL : string := String "007"%char EmptyString.

Definition binaryTmuxNotice : string :=
  "Binary upload in tmux is not supported, auto switch to base64 mode." +:+ LF.

Definition binaryWindowsNotice : string :=
  "Binary upload on Windows is not supported, auto switch to base64 mode." +:+ LF.

(** The format of the initiation marker. *)
Definition marker (mode version uniqueID : string) : string :=
  ESCs +:+ "7" +:+ BEL +:+ "::TRZSZ:TRANSFER:" +:+ mode +:+ ":" +:+ version
  +:+ ":" +:+ uniqueID +:+ CR +:+ LF.

(** The deferred calls run when the function returns, last one first; the
    one that recovers from a panic of the transfer has nothing to do in a
    run where the methods of the transfer return. *)
Definition TrzMain : M (outcome Z) :=
  let args := arg_MustParse in
  match filepath_Abs (Path args) with
  | inl err => Fprintln_Stderr err ;;; ret (Return (-1)%Z)
  | inr path =>
      let args := set_Path path args in
      match checkPathWritable (Path args) with
      | Some err => Fprintln_Stderr err ;;; ret (Return (-2)%Z)
      | None =>
          match checkTmux with
          | Panicked msg => ret (Panicked msg)
          | Return (_, _, _, Some err) =>
              Fprintln_Stderr err ;;; ret (Return (-3)%Z)
          | Return (tmuxMode, realStdout, tmuxPaneWidth, None) =>
              args <- (if Binary (TrzArgs_Args args)
                          && negb (TmuxMode_eqb tmuxMode NoTmux)
                       then WriteString_Stdout binaryTmuxNotice ;;;
                            ret (set_Binary false args)
                       else ret args) ;;
              args <- (if Binary (TrzArgs_Args args) && isWindows
                       then WriteString_Stdout binaryWindowsNotice ;;;
                            ret (set_Binary false args)
                       else ret args) ;;
              let uniqueID :=
                FormatInt (Z.rem time_Now_UnixMilli 100000000000) in
              r <- (if isWindows then
                      deferReset <-
                        (emit EEnableVirtualTerminal ;;;
                         match enableVirtualTerminal with
                         | None => ret true
                         | Some _ => ret false
                         end) ;;
                      emit ESetupConsoleOutput ;;;
                      ret (uniqueID +:+ "10", deferReset)
                    else if TmuxMode_eqb tmuxMode TmuxNormalMode then
                      let columns := getTerminalColumns in
                      (if (0 <? columns)%Z && (columns <? 40)%Z
                       then WriteString_Stdout
                              (LF +:+ LF +:+ ESCs +:+ "[2A" +:+ ESCs +:+ "[0J")
                       else WriteString_Stdout
                              (LF +:+ ESCs +:+ "[1A" +:+ ESCs +:+ "[0J")) ;;;
                      ret (uniqueID +:+ "20", false)
                    else ret (uniqueID +:+ "00", false)) ;;
              let '(uniqueID, deferReset) := r in
              let resetVirtualTerminal : M unit :=
                if deferReset then emit EResetVirtualTerminal else ret tt in
              let mode := if Directory (TrzArgs_Args args) then "D" else "R" in
              WriteString_Stdout (marker mode kTrzszVersion uniqueID) ;;;
              emit EStdoutSync ;;;
              emit EMakeRaw ;;;
              match term_MakeRaw with
              | Some err =>
                  Fprintln_Stderr err ;;;
                  resetVirtualTerminal ;;;
                  ret (Return (-4)%Z)
              | None =>
                  emit (ENewTransfer realStdout) ;;;
                  emit EGoWrapStdinInput ;;;
                  emit EHandleServerSignal ;;;
                  r <- recvFiles args tmuxMode tmuxPaneWidth ;;
                  (match snd r with
                   | Some err => emit (EServerError err)
                   | None => ret tt
                   end) ;;;
                  emit ETermRestore ;;;
                  resetVirtualTerminal ;;;
                  ret (Return 0%Z)
              end
          end
      end
  end.

(** *** The runs of [TrzMain] *)

(** The strings written to the standard output by [TrzMain] itself. *)
Fixpoint stdoutWrites (log : list Event) : list string :=
  match log with
  | [] => []
  | EStdout s :: log' => s :: stdoutWrites log'
  | _ :: log' => stdoutWrites log'
  end.

Definition markerPrefix : string :=
  ESCs +:+ "7" +:+ BEL +:+ "::TRZSZ:TRANSFER:".

(** [strings.HasPrefix]. *)
Fixpoint HasPrefix (s prefix : string) {struct prefix} : bool :=
  match prefix with
  | EmptyString => true
  | String a prefix' =>
      match s with
      | EmptyString => false
      | String b s' => Ascii.eqb a b && HasPrefix s' prefix'
      end
  end.

Definition isMarker (s : string) : bool := HasPrefix s markerPrefix.

(** The two-digit suffix of the unique identifier. *)
Definition platformSuffix (tmuxMode : TmuxMode) : string :=
  if isWindows then "10"
  else if TmuxMode_eqb tmuxMode TmuxNormalMode then "20"
  else "00".

(** The notice printed when the binary flag is cleared. *)
Definition switchNotice (tmuxMode : TmuxMode) : string :=
  if TmuxMode_eqb tmuxMode NoTmux then binaryWindowsNotice else binaryTmuxNotice.

(** The cursor sequence written before the marker under tmux in normal
    mode. *)
Definition cursorWrites (tmuxMode : TmuxMode) : list string :=
  if isWindows then []
  else if TmuxMode_eqb tmuxMode TmuxNormalMode then
    [if (0 <? getTerminalColumns)%Z && (getTerminalColumns <? 40)%Z
     then LF +:+ LF +:+ ESCs +:+ "[2A" +:+ ESCs +:+ "[0J"
     else LF +:+ ESCs +:+ "[1A" +:+ ESCs +:+ "[0J"]
  else [].

(** The events of a run that goes past the checks, part by part: the
    notices about binary mode, the preparation of the terminal, and what
    follows the marker. *)
Definition noticeEvents (args : TrzArgs) (tmuxMode : TmuxMode) : list Event :=
  (if Binary (TrzArgs_Args args) && negb (TmuxMode_eqb tmuxMode NoTmux)
   then [EStdout binaryTmuxNotice] else [])
  ++ (if Binary (TrzArgs_Args args) && TmuxMode_eqb tmuxMode NoTmux && isWindows
      then [EStdout binaryWindowsNotice] else []).

(** The arguments after the two checks on binary mode. *)
Definition handshakeArgs (args : TrzArgs) (tmuxMode : TmuxMode) : TrzArgs :=
  if Binary (TrzArgs_Args args)
     && (negb (TmuxMode_eqb tmuxMode NoTmux) || isWindows)
  then set_Binary false args else args.

Definition platformEvents (tmuxMode : TmuxMode) : list Event :=
  (if isWindows then [EEnableVirtualTerminal; ESetupConsoleOutput] else [])
  ++ map EStdout (cursorWrites tmuxMode).

Definition resetEvents : list Event :=
  if isWindows then
    match enableVirtualTerminal with
    | None => [EResetVirtualTerminal]
    | Some _ => []
    end
  else [].

Definition handshakeEvents (args : TrzArgs) (tmuxMode : TmuxMode)
    (realStdout : File) (tmuxPaneWidth : Z) : list Event :=
  match term_MakeRaw with
  | Some err => EStderr (error_Error err +:+ LF) :: resetEvents
  | None =>
      [ENewTransfer realStdout;
       EGoWrapStdinInput; EHandleServerSignal]
      ++ snd (recvFiles args tmuxMode tmuxPaneWidth [])
      ++ (match snd (fst (recvFiles args tmuxMode tmuxPaneWidth [])) with
          | Some err => [EServerError err]
          | None => []
          end)
      ++ ETermRestore :: resetEvents
  end.

(** The checks made before the handshake have passed: the destination is
    [path], the probe of tmux gave [tmuxMode], [realStdout] and
    [tmuxPaneWidth]. *)
Definition validated (path : string) (tmuxMode : TmuxMode)
    (realStdout : File) (tmuxPaneWidth : Z) : Prop :=
  filepath_Abs (Path arg_MustParse) = inr path /\
  checkPathWritable path = None /\
  checkTmux = Return (tmuxMode, realStdout, tmuxPaneWidth, None).

(** The failures of the checks made before the handshake, with the error
    and the exit code of each. *)
Inductive ValidationFailure : error -> Z -> Prop :=
| Unresolved (err : error) :
    filepath_Abs (Path arg_MustParse) = inl err ->
    ValidationFailure err (-1)
| NoSuchDirectory (path : string) (err : error) :
    filepath_Abs (Path arg_MustParse) = inr path ->
    os_Stat path = inl err -> is_ErrNotExist err = true ->
    ValidationFailure
      (ErrTrzsz (newTrzszError ("No such directory: " +:+ path))) (-2)
| StatFailed (path : string) (err : error) :
    filepath_Abs (Path arg_MustParse) = inr path ->
    os_Stat path = inl err -> is_ErrNotExist err = false ->
    ValidationFailure err (-2)
| NotADirectory (path : string) (info : FileInfo) :
    filepath_Abs (Path arg_MustParse) = inr path ->
    os_Stat path = inr info -> IsDir info = false ->
    ValidationFailure
      (ErrTrzsz (newTrzszError ("Not a directory: " +:+ path))) (-2)
| NotWritable (path : string) (info : FileInfo) (e : error) :
    filepath_Abs (Path arg_MustParse) = inr path ->
    os_Stat path = inr info -> IsDir info = true ->
    syscallAccessWok path = Some e ->
    ValidationFailure
      (ErrTrzsz (newTrzszError ("No permission to write: " +:+ path))) (-2)
| TmuxFailed (path : string) (tmuxMode : TmuxMode) (realStdout : File)
    (tmuxPaneWidth : Z) (err : error) :
    filepath_Abs (Path arg_MustParse) = inr path ->
    checkPathWritable path = None ->
    checkTmux = Return (tmuxMode, realStdout, tmuxPaneWidth, Some err) ->
    ValidationFailure err (-3).

End Trz.

(** ** An implementation of the zlib interface

    The zlib format of RFC 1950 with the stored (uncompressed) blocks of
    RFC 1951: a compressor every zlib reader accepts, and a reader for the
    streams made of stored blocks.  It shows that the interface [Zlib] and
    its round-trip law have a model. *)

Module StoredZlib.
Import Base64.
Local Open Scope Z_scope.

Definition adler32_step (s : Z * Z) (c : byte) : Z * Z :=
  let a := (fst s + byte_to_Z c) mod 65521 in
  (a, (snd s + a) mod 65521).

Definition adler32 (data : bytes) : Z :=
  let s := fold_left adler32_step data (1, 0) in
  Z.lor (Z.shiftl (snd s) 16) (fst s).

Definition be32 (v : Z) : bytes :=
  [byte_of_Z (Z.shiftr v 24); byte_of_Z (Z.shiftr v 16);
   byte_of_Z (Z.shiftr v 8); byte_of_Z v].

Definition le16 (v : Z) : bytes := [byte_of_Z v; byte_of_Z (Z.shiftr v 8)].

(** The longest stored block. *)
Definition maxStored : nat := Z.to_nat 65535.

Definition storedBlock (final : bool) (chunk : bytes) : bytes :=
  let len := Z.of_nat (length chunk) in
  (if final then x01 else x00) :: le16 len ++ le16 (65535 - len) ++ chunk.

Fixpoint storedBlocks (fuel : nat) (data : bytes) : bytes :=
  match fuel with
  | O => storedBlock true data
  | S fuel' =>
      if (length data <=? maxStored)%nat then storedBlock true data
      else storedBlock false (firstn maxStored data)
           ++ storedBlocks fuel' (skipn maxStored data)
  end.

Definition compress (data : bytes) : bytes :=
  [x78; x01] ++ storedBlocks (length data) data ++ be32 (adler32 data).

Definition ErrHeader : error := LibError "zlib: invalid header".
Definition ErrDictionary : error := LibError "zlib: invalid dictionary".
Definition ErrChecksum : error := LibError "zlib: invalid checksum".
Definition ErrUnexpectedEOF : error := LibError "unexpected EOF".
Definition ErrCorrupt : error := LibError "flate: corrupt input".
Definition ErrUnsupported : error := LibError "flate: block type not supported".

Definition NewReader (b : bytes) : error + bytes :=
  match b with
  | cmf :: flg :: rest =>
      let h := byte_to_Z cmf * 256 + byte_to_Z flg in
      if negb ((Z.land (byte_to_Z cmf) 15 =? 8)
               && (Z.shiftr (byte_to_Z cmf) 4 <=? 7)
               && (h mod 31 =? 0))
      then inl ErrHeader
      else if negb (Z.land (byte_to_Z flg) 32 =? 0) then inl ErrDictionary
      else inr rest
  | _ => inl ErrUnexpectedEOF
  end.

(** The blocks of [data], appended to [out]; the result is the output and
    what follows the final block. *)
Fixpoint inflateStored (fuel : nat) (data : bytes) (out : bytes)
  : error + (bytes * bytes) :=
  match fuel with
  | O => inl ErrCorrupt
  | S fuel' =>
      match data with
      | hdr :: l0 :: l1 :: n0 :: n1 :: rest =>
          if negb (Z.land (Z.shiftr (byte_to_Z hdr) 1) 3 =? 0)
          then inl ErrUnsupported
          else
            let len := byte_to_Z l0 + 256 * byte_to_Z l1 in
            let nlen := byte_to_Z n0 + 256 * byte_to_Z n1 in
            if negb (len + nlen =? 65535) then inl ErrCorrupt
            else if (Z.of_nat (length rest) <? len) then inl ErrUnexpectedEOF
            else
              let out' := out ++ firstn (Z.to_nat len) rest in
              let rest' := skipn (Z.to_nat len) rest in
              if Z.land (byte_to_Z hdr) 1 =? 1 then inr (out', rest')
              else inflateStored fuel' rest' out'
      | _ => inl ErrUnexpectedEOF
      end
  end.

Fixpoint bytes_eqb (a b : bytes) : bool :=
  match a, b with
  | [], [] => true
  | x :: a', y :: b' => byte_eqb x y && bytes_eqb a' b'
  | _, _ => false
  end.

Definition ReadAll (z : bytes) : error + bytes :=
  match inflateStored (length z) z [] with
  | inl err => inl err
  | inr (out, trailer) =>
      if bytes_eqb trailer (be32 (adler32 out)) then inr out
      else inl ErrChecksum
  end.

#[export] Instance stored : Zlib := {|
  zreader := bytes;
  zlib_compress := compress;
  zlib_NewReader := NewReader;
  zlib_ReadAll := ReadAll
|}.

End StoredZlib.

(** ** The walked tree

    The tree the walker sees below a root, in terms of the answers of the
    file system: the children of a directory are the joined names of its
    entries. *)

Section Tree.
Context `{FS : FileSystem}.

Definition isDirPath (p : string) : Prop :=
  exists info, os_Stat p = inr info /\ IsDir info = true.

Inductive Child (p : string) : string -> Prop :=
| Child_entry (names : list string) (file : string) :
    isDirPath p -> os_Readdir p = inr names -> In file names ->
    Child p (filepath_Join p file).

(** [Below root q]: [q] is [root] or lies under it. *)
Inductive Below (root : string) : string -> Prop :=
| Below_root : Below root root
| Below_child (p q : string) : Below root p -> Child p q -> Below root q.

(** A symbolic-link loop among directories: a directory [q] strictly under
    a directory [p] of the tree is the same directory as [p]. *)
Definition symlinkLoop (root : string) : Prop :=
  exists p c q r,
    Below root p /\ Child p c /\ Below c q /\ isDirPath q /\
    filepath_EvalSymlinks p = inr r /\ filepath_EvalSymlinks q = inr r.


End Tree.

(** ** A file system given by a table

    Absolute paths with [/] as separator; a node is a directory with its
    entries, a regular file, another kind of file, or a symbolic link to
    the path of a node that is not a link. *)

Module TableFS.

Inductive Node : Type :=
| NDir (entries : list string)
| NReg (readable : bool)
| NOther
| NLink (target : string).

Definition Table : Type := list (string * Node).

Fixpoint lookup (tbl : Table) (p : string) : option Node :=
  match tbl with
  | [] => None
  | (q, n) :: tbl' => if String.eqb p q then Some n else lookup tbl' p
  end.

Definition join (a b : string) : string := a +:+ "/" +:+ b.

(** The components of an absolute path. *)
Definition components (p : string) : list string := tl (Split p "/"%byte).

(** The path of the node a path leads to, links followed. *)
Definition resolve (tbl : Table) (p : string) : option string :=
  fold_left
    (fun cur c =>
       match cur with
       | None => None
       | Some d =>
           match lookup tbl (join d c) with
           | Some (NLink t) => Some t
           | Some _ => Some (join d c)
           | None => None
           end
       end)
    (components p) (Some "").

Definition node (tbl : Table) (p : string) : option Node :=
  match resolve tbl p with
  | Some q => lookup tbl q
  | None => None
  end.

Definition stat (tbl : Table) (p : string) : error + FileInfo :=
  let name := List.last (components p) "/" in
  match node tbl p with
  | Some (NDir _) => inr (mkFileInfo name ModeDir)
  | Some (NReg _) => inr (mkFileInfo name ModeRegular)
  | Some NOther => inr (mkFileInfo name ModeOther)
  | _ => inl (PathError "stat" p ENOENT)
  end.

Definition fs (tbl : Table) (writable : bool) : FileSystem := {|
  os_Stat := stat tbl;
  os_Open p :=
    match node tbl p with
    | Some _ => None
    | None => Some (PathError "open" p ENOENT)
    end;
  os_Readdir p :=
    match node tbl p with
    | Some (NDir entries) => inr entries
    | _ => inl (PathError "readdirent" p ENOTDIR)
    end;
  filepath_Abs p := inr p;
  filepath_Join := join;
  filepath_EvalSymlinks p :=
    match resolve tbl p with
    | Some q => inr q
    | None => inl (PathError "lstat" p ENOENT)
    end;
  syscallAccessWok p :=
    if writable then None else Some (PathError "access" p EACCES);
  syscallAccessRok p :=
    match node tbl p with
    | Some (NReg false) => Some (PathError "access" p EACCES)
    | _ => None
    end
|}.



(** A directory [/dir] holding [f], [f.0] and [f.1]. *)
Definition names : Table :=
  [("/dir", NDir ["f"; "f.0"; "f.1"]);
   ("/dir/f", NReg true); ("/dir/f.0", NReg true); ("/dir/f.1", NReg true)].



End TableFS.

(** ** A process given by a few choices

    A terminal session for the examples: the destination and the flags of
    the command line, the platform, the content of the answer of [tmux]
    when the variable [TMUX] is set, and a peer that confirms and announces
    the capabilities [supportBinary] and [supportDirectory]. *)

Module Session.

Definition devices : TableFS.Table :=
  [("/dev", TableFS.NDir ["pts"]); ("/dev/pts", TableFS.NDir ["1"]);
   ("/dev/pts/1", TableFS.NOther);
   ("/home", TableFS.NDir ["u"]); ("/home/u", TableFS.NDir ["f"]);
   ("/home/u/f", TableFS.NReg true)].

Definition files (writable : bool) : FileSystem := TableFS.fs devices writable.

Definition args (path : string) (binary directory : bool) : TrzArgs :=
  mkTrzArgs (mkArgs false false binary false directory
                    (mkBufferSize 10485760) 20) path.

Definition process (path : string) (binary directory windows : bool)
    (tmux : option string) (supportBinary supportDirectory : bool)
  : Process := {|
  arg_MustParse := args path binary directory;
  isWindows := windows;
  kTrzszVersion := "1.0.0";
  time_Now_UnixMilli := 1698765432100;
  LookupEnv_TMUX := match tmux with Some _ => true | None => false end;
  tmux_display_message :=
    match tmux with
    | Some out => inr (bytes_of_string out)
    | None => inl (LibError "exit status 1")
    end;
  os_OpenFile_WRONLY _ := None;
  stty_size := inr (bytes_of_string ("24 80" +:+ LF));
  enableVirtualTerminal := None;
  term_MakeRaw := None;
  getEscapeChars _ := [];
  transfer_recvAction :=
    inr (mkTransferAction "go" "1.0.0" true LF 1 supportBinary supportDirectory);
  transfer_sendConfig _ _ _ _ _ := None;
  transfer_recvFiles _ := inr ["f"];
  transfer_recvExit := inr ""
|}.

End Session.


(** * Properties *)

(** ** Equality of bytes *)

Lemma byte_eqb_refl (a : byte) : byte_eqb a a = true.
Proof. apply Byte.byte_dec_lb; reflexivity. Qed.

Lemma byte_eqb_eq (a b : byte) : byte_eqb a b = true <-> a = b.
Proof.
  split; [apply Byte.byte_dec_bl | intros ->; apply byte_eqb_refl].
Qed.

Lemma byte_eqb_neq (a b : byte) : byte_eqb a b = false <-> a <> b.
Proof.
  split.
  - apply Byte.eqb_false.
  - intros Hn; destruct (byte_eqb a b) eqn:E; [| reflexivity].
    apply byte_eqb_eq in E; contradiction.
Qed.

(** ** Bit-level arithmetic *)

Module BitFacts.
Local Open Scope Z_scope.

Lemma lor_shiftl_add (x y k : Z) :
  0 <= k -> 0 <= y < 2 ^ k -> Z.lor (Z.shiftl x k) y = x * 2 ^ k + y.
Proof.
  intros Hk Hy.
  rewrite Z.shiftl_mul_pow2 by lia.
  rewrite <- (Z.add_lor_land (x * 2 ^ k) y).
  assert (Hz : Z.land (x * 2 ^ k) y = 0).
  { apply Z.bits_inj'; intros n Hn; rewrite Z.land_spec, Z.bits_0.
    destruct (Z.lt_ge_cases n k) as [Hlt | Hge].
    - rewrite Z.mul_pow2_bits_low by lia; reflexivity.
    - rewrite <- (Z.mod_small y (2 ^ k)) by lia.
      rewrite Z.mod_pow2_bits_high by lia; apply Bool.andb_false_r. }
  rewrite Hz; lia.
Qed.

Lemma land_255 (v : Z) : Z.land v 255 = v mod 256.
Proof. change 255 with (Z.ones 8); rewrite Z.land_ones by lia; reflexivity. Qed.

Lemma land_63 (v : Z) : Z.land v 63 = v mod 64.
Proof. change 63 with (Z.ones 6); rewrite Z.land_ones by lia; reflexivity. Qed.

Lemma byte_to_Z_range (b : byte) : 0 <= Base64.byte_to_Z b < 256.
Proof.
  unfold Base64.byte_to_Z; pose proof (Byte.to_N_bounded b); lia.
Qed.

Lemma byte_of_Z_small (b : byte) (v : Z) :
  v mod 256 = Base64.byte_to_Z b -> Base64.byte_of_Z v = b.
Proof.
  intros Hv; unfold Base64.byte_of_Z.
  rewrite land_255, Hv; unfold Base64.byte_to_Z.
  rewrite N2Z.id, Byte.of_to_N; reflexivity.
Qed.

Lemma byte_of_to_Z (b : byte) : Base64.byte_of_Z (Base64.byte_to_Z b) = b.
Proof.
  apply byte_of_Z_small, Z.mod_small, byte_to_Z_range.
Qed.

Lemma byte_to_of_Z (v : Z) : Base64.byte_to_Z (Base64.byte_of_Z v) = v mod 256.
Proof.
  unfold Base64.byte_of_Z, Base64.byte_to_Z; rewrite land_255.
  assert (Hr : 0 <= v mod 256 < 256) by (apply Z.mod_pos_bound; lia).
  destruct (Byte.of_N (Z.to_N (v mod 256))) as [b |] eqn:E.
  - apply Byte.to_of_N in E; rewrite E; lia.
  - apply Byte.of_N_None_iff in E; lia.
Qed.

End BitFacts.

(** ** Base64: decoding an encoding *)

Module Base64Facts.
Import Base64 BitFacts.
Local Open Scope Z_scope.

Lemma lor_add_disjoint (x y k : Z) :
  0 <= k -> 0 <= y < 2 ^ k -> x mod 2 ^ k = 0 -> Z.lor x y = x + y.
Proof.
  intros Hk Hy Hx.
  assert (Hp : 0 < 2 ^ k) by (apply Z.pow_pos_nonneg; lia).
  rewrite (Z.div_mod x (2 ^ k)) at 1 by lia.
  rewrite Hx, Z.add_0_r, Z.mul_comm, <- Z.shiftl_mul_pow2 by lia.
  rewrite lor_shiftl_add by lia.
  rewrite (Z.div_mod x (2 ^ k)) at 2 by lia; lia.
Qed.

Lemma val3 (a b c : Z) :
  0 <= a < 256 -> 0 <= b < 256 -> 0 <= c < 256 ->
  Z.lor (Z.lor (Z.shiftl a 16) (Z.shiftl b 8)) c = a * 65536 + b * 256 + c.
Proof.
  intros Ha Hb Hc.
  rewrite !Z.shiftl_mul_pow2 by lia.
  change (2 ^ 16) with 65536; change (2 ^ 8) with 256.
  assert (E1 : Z.lor (a * 65536) (b * 256) = a * 65536 + b * 256).
  { apply (lor_add_disjoint _ _ 16); change (2 ^ 16) with 65536; try lia.
    rewrite Z.mod_mul; lia. }
  rewrite E1.
  apply (lor_add_disjoint _ _ 8); change (2 ^ 8) with 256; try lia.
  replace (a * 65536 + b * 256) with ((a * 256 + b) * 256) by lia.
  rewrite Z.mod_mul; lia.
Qed.

Lemma val4 (s0 s1 s2 s3 : Z) :
  0 <= s0 < 64 -> 0 <= s1 < 64 -> 0 <= s2 < 64 -> 0 <= s3 < 64 ->
  Z.lor (Z.lor (Z.lor (Z.shiftl s0 18) (Z.shiftl s1 12)) (Z.shiftl s2 6)) s3
  = s0 * 262144 + s1 * 4096 + s2 * 64 + s3.
Proof.
  intros H0 H1 H2 H3.
  rewrite !Z.shiftl_mul_pow2 by lia.
  change (2 ^ 18) with 262144; change (2 ^ 12) with 4096; change (2 ^ 6) with 64.
  assert (E1 : Z.lor (s0 * 262144) (s1 * 4096) = s0 * 262144 + s1 * 4096).
  { apply (lor_add_disjoint _ _ 18); change (2 ^ 18) with 262144; try lia.
    rewrite Z.mod_mul; lia. }
  rewrite E1.
  assert (E2 : Z.lor (s0 * 262144 + s1 * 4096) (s2 * 64)
               = s0 * 262144 + s1 * 4096 + s2 * 64).
  { apply (lor_add_disjoint _ _ 12); change (2 ^ 12) with 4096; try lia.
    replace (s0 * 262144 + s1 * 4096) with ((s0 * 64 + s1) * 4096) by lia.
    rewrite Z.mod_mul; lia. }
  rewrite E2.
  apply (lor_add_disjoint _ _ 6); change (2 ^ 6) with 64; try lia.
  replace (s0 * 262144 + s1 * 4096 + s2 * 64)
    with ((s0 * 4096 + s1 * 64 + s2) * 64) by lia.
  rewrite Z.mod_mul; lia.
Qed.

Lemma sextet_range (val i : Z) : 0 <= sextet val i < 64.
Proof.
  unfold sextet; rewrite land_63; apply Z.mod_pos_bound; lia.
Qed.

Lemma sextets_val (val : Z) :
  0 <= val < 16777216 ->
  sextet val 0 * 262144 + sextet val 1 * 4096 + sextet val 2 * 64 + sextet val 3
  = val.
Proof.
  intros Hv; unfold sextet; rewrite !land_63, !Z.shiftr_div_pow2 by lia.
  change (2 ^ (18 - 6 * 0)) with 262144; change (2 ^ (18 - 6 * 1)) with 4096.
  change (2 ^ (18 - 6 * 2)) with 64; change (2 ^ (18 - 6 * 3)) with 1.
  Z.div_mod_to_equations; lia.
Qed.

Lemma decodeMap_encode_char (v : Z) :
  0 <= v < 64 -> decodeMap (encode_char v) = Some v.
Proof.
  intros Hv.
  rewrite <- (Z2Nat.id v) by lia.
  assert (Hn : (Z.to_nat v < 64)%nat) by lia.
  revert Hn; generalize (Z.to_nat v); intros n Hn.
  do 64 (destruct n as [| n]; [vm_compute; reflexivity |]); lia.
Qed.

Lemma decodeMap_padChar : decodeMap padChar = None.
Proof. vm_compute; reflexivity. Qed.

Lemma Decode_value (c : byte) (out : Z) (rest : bytes) (si : nat)
    (dbuf : list Z) (dst : bytes) :
  decodeMap c = Some out ->
  Decode (c :: rest) si dbuf dst =
  if (length dbuf =? 3)%nat
  then Decode rest (S si) [] (dst ++ quantum (dbuf ++ [out]) 4)
  else Decode rest (S si) (dbuf ++ [out]) dst.
Proof. intros E; cbn [Decode]; rewrite E; reflexivity. Qed.

Lemma Decode_group (s0 s1 s2 s3 : Z) (rest : bytes) (si : nat) (dst : bytes) :
  0 <= s0 < 64 -> 0 <= s1 < 64 -> 0 <= s2 < 64 -> 0 <= s3 < 64 ->
  Decode (encode_char s0 :: encode_char s1 :: encode_char s2
          :: encode_char s3 :: rest) si [] dst
  = Decode rest (S (S (S (S si)))) [] (dst ++ quantum [s0; s1; s2; s3] 4).
Proof.
  intros H0 H1 H2 H3.
  rewrite (Decode_value _ s0) by (apply decodeMap_encode_char; assumption).
  cbn [length Nat.eqb app].
  rewrite (Decode_value _ s1) by (apply decodeMap_encode_char; assumption).
  cbn [length Nat.eqb app].
  rewrite (Decode_value _ s2) by (apply decodeMap_encode_char; assumption).
  cbn [length Nat.eqb app].
  rewrite (Decode_value _ s3) by (apply decodeMap_encode_char; assumption).
  reflexivity.
Qed.

Lemma quantum3 (a b c : byte) :
  let val := Z.lor (Z.lor (Z.shiftl (byte_to_Z a) 16) (Z.shiftl (byte_to_Z b) 8))
                   (byte_to_Z c) in
  quantum [sextet val 0; sextet val 1; sextet val 2; sextet val 3] 4 = [a; b; c].
Proof.
  intros val.
  pose proof (byte_to_Z_range a) as Ha.
  pose proof (byte_to_Z_range b) as Hb.
  pose proof (byte_to_Z_range c) as Hc.
  assert (Hval : val = byte_to_Z a * 65536 + byte_to_Z b * 256 + byte_to_Z c)
    by (apply val3; assumption).
  unfold quantum; cbn [nth Nat.sub firstn].
  rewrite val4 by apply sextet_range.
  rewrite sextets_val by lia.
  rewrite !Z.shiftr_div_pow2 by lia.
  change (2 ^ 16) with 65536; change (2 ^ 8) with 256.
  f_equal; [| f_equal; [| f_equal]]; apply byte_of_Z_small; rewrite Hval;
    Z.div_mod_to_equations; lia.
Qed.

Lemma quantum2 (a b : byte) :
  let val := Z.lor (Z.shiftl (byte_to_Z a) 16) (Z.shiftl (byte_to_Z b) 8) in
  quantum [sextet val 0; sextet val 1; sextet val 2] 3 = [a; b].
Proof.
  intros val.
  pose proof (byte_to_Z_range a) as Ha.
  pose proof (byte_to_Z_range b) as Hb.
  assert (Hval : val = byte_to_Z a * 65536 + byte_to_Z b * 256).
  { unfold val. rewrite <- (Z.lor_0_r (Z.lor _ _)), val3 by lia. lia. }
  assert (H3 : sextet val 3 = 0).
  { unfold sextet; rewrite land_63, Z.shiftr_div_pow2 by lia.
    change (2 ^ (18 - 6 * 3)) with 1; rewrite Hval.
    Z.div_mod_to_equations; lia. }
  unfold quantum; cbn [nth Nat.sub firstn].
  rewrite val4 by (try apply sextet_range; lia).
  pose proof (sextets_val val) as Hs. rewrite H3 in Hs.
  replace (sextet val 0 * 262144 + sextet val 1 * 4096 + sextet val 2 * 64 + 0)
    with val by lia.
  rewrite !Z.shiftr_div_pow2 by lia.
  change (2 ^ 16) with 65536; change (2 ^ 8) with 256.
  f_equal; [| f_equal]; apply byte_of_Z_small; rewrite Hval;
    Z.div_mod_to_equations; lia.
Qed.

Lemma quantum1 (a : byte) :
  let val := Z.shiftl (byte_to_Z a) 16 in
  quantum [sextet val 0; sextet val 1] 2 = [a].
Proof.
  intros val.
  pose proof (byte_to_Z_range a) as Ha.
  assert (Hval : val = byte_to_Z a * 65536).
  { unfold val; rewrite Z.shiftl_mul_pow2 by lia; reflexivity. }
  assert (H2 : sextet val 2 = 0).
  { unfold sextet; rewrite land_63, Z.shiftr_div_pow2 by lia.
    change (2 ^ (18 - 6 * 2)) with 64; rewrite Hval.
    Z.div_mod_to_equations; lia. }
  assert (H3 : sextet val 3 = 0).
  { unfold sextet; rewrite land_63, Z.shiftr_div_pow2 by lia.
    change (2 ^ (18 - 6 * 3)) with 1; rewrite Hval.
    Z.div_mod_to_equations; lia. }
  unfold quantum; cbn [nth Nat.sub firstn].
  rewrite val4 by (try apply sextet_range; lia).
  pose proof (sextets_val val) as Hs. rewrite H2, H3 in Hs.
  replace (sextet val 0 * 262144 + sextet val 1 * 4096 + 0 * 64 + 0)
    with val by lia.
  rewrite !Z.shiftr_div_pow2 by lia.
  change (2 ^ 16) with 65536.
  f_equal; apply byte_of_Z_small; rewrite Hval; Z.div_mod_to_equations; lia.
Qed.

(** Induction on a list of bytes, three at a time. *)
Lemma bytes_ind3 (P : bytes -> Prop) :
  P [] -> (forall a, P [a]) -> (forall a b, P [a; b]) ->
  (forall a b c rest, P rest -> P (a :: b :: c :: rest)) ->
  forall l, P l.
Proof.
  intros H0 H1 H2 H3.
  fix IH 1.
  intros [| a [| b [| c rest]]].
  - exact H0.
  - exact (H1 a).
  - exact (H2 a b).
  - exact (H3 a b c rest (IH rest)).
Qed.

Lemma Decode_Encode (src : bytes) :
  forall (si : nat) (dst : bytes), Decode (Encode src) si [] dst = inr (dst ++ src).
Proof.
  induction src as [| a | a b | a b c rest IH] using bytes_ind3; intros si dst.
  - cbn; rewrite app_nil_r; reflexivity.
  - cbn [Encode].
    set (val := Z.shiftl (byte_to_Z a) 16).
    change (Z.land (Z.shiftr val 18) 63) with (sextet val 0).
    change (Z.land (Z.shiftr val 12) 63) with (sextet val 1).
    rewrite (Decode_value _ (sextet val 0))
      by (apply decodeMap_encode_char, sextet_range).
    cbn [length Nat.eqb app].
    rewrite (Decode_value _ (sextet val 1))
      by (apply decodeMap_encode_char, sextet_range).
    cbn [length Nat.eqb app].
    change (Decode [padChar; padChar] (S (S si)) [sextet val 0; sextet val 1] dst)
      with (@inr error _ (dst ++ quantum [sextet val 0; sextet val 1] 2)).
    subst val; rewrite (quantum1 a); reflexivity.
  - cbn [Encode].
    set (val := Z.lor (Z.shiftl (byte_to_Z a) 16) (Z.shiftl (byte_to_Z b) 8)).
    change (Z.land (Z.shiftr val 18) 63) with (sextet val 0).
    change (Z.land (Z.shiftr val 12) 63) with (sextet val 1).
    change (Z.land (Z.shiftr val 6) 63) with (sextet val 2).
    rewrite (Decode_value _ (sextet val 0))
      by (apply decodeMap_encode_char, sextet_range).
    cbn [length Nat.eqb app].
    rewrite (Decode_value _ (sextet val 1))
      by (apply decodeMap_encode_char, sextet_range).
    cbn [length Nat.eqb app].
    rewrite (Decode_value _ (sextet val 2))
      by (apply decodeMap_encode_char, sextet_range).
    cbn [length Nat.eqb app].
    change (Decode [padChar] (S (S (S si)))
              [sextet val 0; sextet val 1; sextet val 2] dst)
      with (@inr error _ (dst ++ quantum [sextet val 0; sextet val 1; sextet val 2] 3)).
    subst val; rewrite (quantum2 a b); reflexivity.
  - cbn [Encode].
    set (val := Z.lor (Z.lor (Z.shiftl (byte_to_Z a) 16)
                             (Z.shiftl (byte_to_Z b) 8)) (byte_to_Z c)).
    change (Z.land (Z.shiftr val 18) 63) with (sextet val 0).
    change (Z.land (Z.shiftr val 12) 63) with (sextet val 1).
    change (Z.land (Z.shiftr val 6) 63) with (sextet val 2).
    replace (Z.land val 63) with (sextet val 3)
      by (unfold sextet; rewrite Z.shiftr_0_r; reflexivity).
    rewrite Decode_group by apply sextet_range.
    subst val; rewrite IH, (quantum3 a b c), <- app_assoc; reflexivity.
Qed.

Lemma DecodeString_EncodeToString (b : bytes) :
  DecodeString (EncodeToString b) = inr b.
Proof.
  unfold DecodeString, EncodeToString, bytes_of_string, string_of_bytes.
  rewrite list_byte_of_string_of_list_byte.
  apply (Decode_Encode b 0%nat []).
Qed.

End Base64Facts.

(** ** The stored-block implementation of zlib satisfies the contract *)

Module StoredZlibFacts.
Import Base64 BitFacts StoredZlib.
Local Open Scope Z_scope.

Lemma maxStored_Z : Z.of_nat maxStored = 65535.
Proof. unfold maxStored; rewrite Z2Nat.id; lia. Qed.

Lemma le16_value (v : Z) :
  0 <= v <= 65535 ->
  byte_to_Z (byte_of_Z v) + 256 * byte_to_Z (byte_of_Z (Z.shiftr v 8)) = v.
Proof.
  intros Hv; rewrite !byte_to_of_Z, Z.shiftr_div_pow2 by lia.
  change (2 ^ 8) with 256; Z.div_mod_to_equations; lia.
Qed.

Lemma bytes_eqb_refl (a : bytes) : bytes_eqb a a = true.
Proof.
  induction a as [| x a IH]; cbn; [reflexivity |].
  rewrite IH, byte_eqb_refl; reflexivity.
Qed.

Lemma inflate_block (final : bool) (chunk tail out : bytes) (fuel : nat) :
  Z.of_nat (length chunk) <= 65535 ->
  inflateStored (S fuel) (storedBlock final chunk ++ tail) out =
  if final then inr (out ++ chunk, tail)
  else inflateStored fuel tail (out ++ chunk).
Proof.
  intros Hlen.
  unfold storedBlock; cbn [le16 app inflateStored].
  set (len := Z.of_nat (length chunk)) in *.
  replace (Z.land (Z.shiftr (byte_to_Z (if final then x01 else x00)) 1) 3 =? 0)
    with true by (destruct final; reflexivity).
  cbn [negb].
  rewrite (le16_value len), (le16_value (65535 - len)) by lia.
  replace (len + (65535 - len) =? 65535) with true by (symmetry; apply Z.eqb_eq; lia).
  cbn [negb].
  replace (Z.of_nat (length (chunk ++ tail)) <? len) with false
    by (symmetry; apply Z.ltb_ge; rewrite length_app; lia).
  unfold len; rewrite Nat2Z.id.
  rewrite firstn_app, firstn_all, Nat.sub_diag, firstn_O, app_nil_r.
  rewrite skipn_app, skipn_all, Nat.sub_diag, skipn_O, app_nil_l.
  destruct final; reflexivity.
Qed.

Lemma inflate_storedBlocks (fuel1 : nat) :
  forall (data tail out : bytes) (fuel2 : nat),
    (length data <= maxStored + fuel1)%nat -> (fuel1 < fuel2)%nat ->
    inflateStored fuel2 (storedBlocks fuel1 data ++ tail) out
    = inr (out ++ data, tail).
Proof.
  pose proof maxStored_Z as HM.
  induction fuel1 as [| fuel1 IH]; intros data tail out fuel2 Hlen Hfuel;
    destruct fuel2 as [| fuel2]; try lia; cbn [storedBlocks].
  - rewrite inflate_block by lia; reflexivity.
  - destruct (Nat.leb_spec (length data) maxStored) as [Hle | Hgt].
    + rewrite inflate_block by lia; reflexivity.
    + rewrite <- app_assoc, inflate_block
        by (rewrite length_firstn; lia).
      rewrite IH by (rewrite ?length_skipn; lia).
      rewrite <- app_assoc, firstn_skipn; reflexivity.
Qed.

Lemma length_storedBlock (final : bool) (chunk : bytes) :
  length (storedBlock final chunk) = (5 + length chunk)%nat.
Proof. reflexivity. Qed.

Lemma length_storedBlocks (fuel : nat) :
  forall data : bytes, (length data < length (storedBlocks fuel data))%nat.
Proof.
  induction fuel as [| fuel IH]; intros data; cbn [storedBlocks].
  - rewrite length_storedBlock; lia.
  - destruct (Nat.leb_spec (length data) maxStored) as [Hle | Hgt].
    + rewrite length_storedBlock; lia.
    + rewrite length_app, length_storedBlock, length_firstn.
      pose proof (IH (skipn maxStored data)) as Hs.
      rewrite length_skipn in Hs; lia.
Qed.

Lemma stored_round_trip : zlib_round_trip (ZL := stored).
Proof.
  intros b; exists (storedBlocks (length b) b ++ be32 (adler32 b)); split.
  - reflexivity.
  - cbn [zlib_ReadAll stored]; unfold ReadAll.
    rewrite inflate_storedBlocks.
    + cbn [app]; rewrite bytes_eqb_refl; reflexivity.
    + lia.
    + rewrite length_app; pose proof (length_storedBlocks (length b) b); lia.
Qed.

End StoredZlibFacts.

(** ** The frame codec *)

Section CodecFacts.
Context `{ZL : Zlib}.

(** C1.  For every byte string [b], decoding the encoding of [b] succeeds
    and gives [b] back: [encodeBytes] compresses with zlib and encodes in
    standard base64, [decodeString] undoes the two steps.  The compressor
    and the reader of the zlib library enter through their contract
    [zlib_round_trip]. *)
Theorem decodeString_encodeBytes :
  zlib_round_trip -> forall b : bytes, decodeString (encodeBytes b) = inr b.
Proof.
  intros Hz b; unfold decodeString, encodeBytes.
  rewrite Base64Facts.DecodeString_EncodeToString.
  destruct (Hz b) as (z & Ez & Er); rewrite Ez, Er; reflexivity.
Qed.

End CodecFacts.

Lemma decodeString_encodeBytes_witness :
  decodeString (ZL := StoredZlib.stored)
    (encodeBytes (ZL := StoredZlib.stored) (bytes_of_string "hello"))
  = inr (bytes_of_string "hello").
Proof.
  apply (decodeString_encodeBytes (ZL := StoredZlib.stored)
           StoredZlibFacts.stored_round_trip).
Defined.

(** ** [trimVT100] *)

Section TrimFacts.







(** Every input has one of three shapes. *)
Lemma noEnd_split (s : bytes) :
  noEnd s \/
  exists mid l rest, s = mid ++ l :: rest /\ noEnd mid /\ isVT100End l = true.
Proof.
  induction s as [| c s IH].
  - left; constructor.
  - destruct (isVT100End c) eqn:E.
    + right; exists [], c, s; repeat split; [constructor | exact E].
    + destruct IH as [Hn | (mid & l & rest & -> & Hm & Hl)].
      * left; constructor; assumption.
      * right; exists (c :: mid), l, rest; repeat split;
          [constructor; assumption | exact Hl].
Qed.

Lemma trimVT100_cases (buf : bytes) :
  ~ In ESC buf \/
  exists pre tail, buf = pre ++ ESC :: tail /\ ~ In ESC pre /\
    (noEnd tail \/
     exists mid l rest, tail = mid ++ l :: rest /\ noEnd mid /\ isVT100End l = true).
Proof.
  induction buf as [| c buf IH].
  - left; intros [].
  - destruct (byte_eqb c ESC) eqn:E.
    + apply byte_eqb_eq in E; subst c.
      right; exists [], buf; repeat split; [intros [] | apply noEnd_split].
    + apply byte_eqb_neq in E.
      destruct IH as [Hn | (pre & tail & -> & Hp & Ht)].
      * left; intros [Hc | Hi]; [congruence | contradiction].
      * right; exists (c :: pre), tail; repeat split; [| exact Ht].
        intros [Hc | Hi]; [congruence | contradiction].
Qed.

End TrimFacts.

(** ** [TrzszError] *)

Section ErrorFacts.
Context `{ZL : Zlib}.

Lemma append_empty_r (s : string) : s +:+ "" = s.
Proof.
  induction s as [| c s IH]; [reflexivity |].
  change (String c (s +:+ "") = String c s); rewrite IH; reflexivity.
Qed.


Lemma errType_NewTrzszError (stack msg typ : string) (trc : bool) :
  errType (NewTrzszError stack msg typ trc) = typ.
Proof.
  unfold NewTrzszError; match goal with |- context [isTraceBack ?e] =>
    destruct (isTraceBack e) end; reflexivity.
Qed.

Lemma isTraceBack_traceAppended (m typ : string) (trc : bool) :
  isTraceBack (mkTrzszError m typ trc) = traceAppended typ trc.
Proof.
  unfold isTraceBack, traceAppended; cbn [errType trace].
  destruct (String.eqb typ "fail"), (String.eqb typ "EXIT"), trc; reflexivity.
Qed.

(** The message before any stack is added. *)
Lemma message_NewTrzszError (stack msg typ : string) (trc : bool) :
  message (NewTrzszError stack msg typ trc) =
  let plain := message (NewTrzszError stack msg typ false) in
  if traceAppended typ trc then plain +:+ LF +:+ stack else plain.
Proof.
  unfold NewTrzszError; rewrite !isTraceBack_traceAppended.
  replace (traceAppended typ false) with false
    by (unfold traceAppended; reflexivity).
  cbv zeta; destruct (traceAppended typ trc); reflexivity.
Qed.

(** C5.  [NewTrzszError(message, errType, trace)]: for [errType] among
    [EXIT], [fail] and [FAIL] the stored message is the decoding of the
    given message, or the text [decode [...] error: ...] when it cannot be
    decoded; the local stack is added to the message exactly when [trace]
    holds and [errType] is neither [fail] nor [EXIT]; [isRemoteExit] holds
    exactly for [EXIT], [isRemoteFail] exactly for [fail] and [FAIL]. *)
Theorem NewTrzszError_spec (stack msg : string) (trc : bool) :
  Forall (fun typ =>
            message (NewTrzszError stack msg typ trc)
            = decodedMessage msg
              +:+ (if traceAppended typ trc then LF +:+ stack else ""))
         ["EXIT"; "fail"; "FAIL"] /\
  forall typ : string,
    let e := NewTrzszError stack msg typ trc in
    let plain := message (NewTrzszError stack msg typ false) in
    message e = (if traceAppended typ trc then plain +:+ LF +:+ stack else plain) /\
    (isRemoteExit e = true <-> typ = "EXIT") /\
    (isRemoteFail e = true <-> typ = "fail" \/ typ = "FAIL").
Proof.
  split.
  - repeat constructor; rewrite message_NewTrzszError; cbv zeta;
      (replace (message (NewTrzszError stack msg _ false))
         with (decodedMessage msg) by reflexivity);
      destruct trc; cbn [traceAppended andb negb String.eqb Ascii.eqb Bool.eqb];
      rewrite ?append_empty_r; reflexivity.
  - intros typ e plain; split; [apply message_NewTrzszError |].
    unfold isRemoteExit, isRemoteFail, e; rewrite errType_NewTrzszError; split.
    + apply String.eqb_eq.
    + rewrite orb_true_iff, !String.eqb_eq; reflexivity.
Qed.

End ErrorFacts.

(** ** [getNewName] *)

Section NameFacts.
Context `{ZL : Zlib} `{FS : FileSystem}.

Lemma getNewName_loop_first (path name : string) (n : nat) :
  forall i k : nat,
    k < n ->
    (forall j, j < k ->
       notExist (filepath_Join path (candidate name (i + j))) = false) ->
    notExist (filepath_Join path (candidate name (i + k))) = true ->
    getNewName_loop path name n i = inr (candidate name (i + k)).
Proof.
  induction n as [| n IH]; intros i k Hk Hbefore Hfree; [lia |].
  cbn [getNewName_loop].
  destruct k as [| k].
  - rewrite Nat.add_0_r in Hfree |- *; rewrite Hfree; reflexivity.
  - pose proof (Hbefore 0 ltac:(lia)) as H0; rewrite Nat.add_0_r in H0.
    rewrite H0, (IH (S i) k); try lia.
    + rewrite Nat.add_succ_comm; reflexivity.
    + intros j Hj; rewrite Nat.add_succ_comm; apply Hbefore; lia.
    + rewrite Nat.add_succ_comm; exact Hfree.
Qed.

Lemma getNewName_loop_taken (path name : string) (n : nat) :
  forall i : nat,
    (forall j, j < n ->
       notExist (filepath_Join path (candidate name (i + j))) = false) ->
    getNewName_loop path name n i = inl failToAssign.
Proof.
  induction n as [| n IH]; intros i Htaken; [reflexivity |].
  cbn [getNewName_loop].
  pose proof (Htaken 0 ltac:(lia)) as H0; rewrite Nat.add_0_r in H0.
  rewrite H0; apply IH.
  intros j Hj; rewrite Nat.add_succ_comm; apply Htaken; lia.
Qed.

(** C2.  [getNewName(path, name)] returns [name] when no entry of that name
    exists under [path]; otherwise the first of [name.0], ..., [name.999]
    that does not exist; it fails with [Fail to assign new file name] when
    all of them exist.  In particular, with [f], [f.0] and [f.1] present and
    [f.2] absent, the result for [f] is [f.2]. *)
Theorem getNewName_spec (path name : string) :
  (notExist (filepath_Join path name) = true ->
   getNewName path name = inr name) /\
  (forall i : nat,
     notExist (filepath_Join path name) = false ->
     i < 1000 ->
     (forall j, j < i ->
        notExist (filepath_Join path (candidate name j)) = false) ->
     notExist (filepath_Join path (candidate name i)) = true ->
     getNewName path name = inr (candidate name i)) /\
  (notExist (filepath_Join path name) = false ->
   (forall j, j < 1000 ->
      notExist (filepath_Join path (candidate name j)) = false) ->
   getNewName path name = inl failToAssign) /\
  (name = "f" ->
   notExist (filepath_Join path "f") = false ->
   notExist (filepath_Join path "f.0") = false ->
   notExist (filepath_Join path "f.1") = false ->
   notExist (filepath_Join path "f.2") = true ->
   getNewName path name = inr "f.2").
Proof.
  assert (Hfirst : forall i : nat,
     notExist (filepath_Join path name) = false ->
     i < 1000 ->
     (forall j, j < i ->
        notExist (filepath_Join path (candidate name j)) = false) ->
     notExist (filepath_Join path (candidate name i)) = true ->
     getNewName path name = inr (candidate name i)).
  { intros i Hname Hi Hbefore Hfree; unfold getNewName; rewrite Hname.
    apply (getNewName_loop_first path name 1000 0 i Hi Hbefore Hfree). }
  split; [| split; [exact Hfirst | split]].
  - intros Hname; unfold getNewName; rewrite Hname; reflexivity.
  - intros Hname Htaken; unfold getNewName; rewrite Hname.
    apply (getNewName_loop_taken path name 1000 0 Htaken).
  - intros -> Hf H0 H1 H2.
    apply (Hfirst 2 Hf ltac:(lia)); [| exact H2].
    intros [| [| j]] Hj; [exact H0 | exact H1 | lia].
Qed.

End NameFacts.

Lemma getNewName_spec_witness :
  getNewName (ZL := StoredZlib.stored) (FS := TableFS.fs TableFS.names true)
    "/dir" "f" = inr "f.2".
Proof.
  apply (getNewName_spec (ZL := StoredZlib.stored)
           (FS := TableFS.fs TableFS.names true) "/dir" "f");
    vm_compute; reflexivity.
Defined.

(** ** The path walker *)



Section WalkFacts.
Context `{ZL : Zlib} `{FS : FileSystem}.

(** *** The set of visited real paths only grows *)



(** *** The walk comes back *)


Section Finite.
Variable dirs : gset string.
Hypothesis dirs_real :
  forall p r, filepath_EvalSymlinks p = inr r -> r ∈ dirs.


End Finite.

(** *** More fuel does not change the result *)



End WalkFacts.

Section WalkTree.
Context `{ZL : Zlib} `{FS : FileSystem}.

(** *** The shape of the tree *)



Lemma Below_isDirPath (root q : string) :
  Below root q -> root = q \/ isDirPath root.
Proof.
  induction 1 as [| p q Hrp IH Hpq]; [left; reflexivity |].
  destruct IH as [-> | Hd]; [| right; exact Hd].
  destruct Hpq as [names file Hd _ _]; right; exact Hd.
Qed.

Lemma symlinkLoop_isDirPath (root : string) : symlinkLoop root -> isDirPath root.
Proof.
  intros (p & c & q & r & Hp & Hc & _).
  destruct (Below_isDirPath root p Hp) as [-> | Hd]; [| exact Hd].
  destruct Hc as [names file Hd _ _]; exact Hd.
Qed.

(** *** What a walk without error has done *)






End WalkTree.

Section WalkErrors.
Context `{ZL : Zlib} `{FS : FileSystem}.

(** *** The only error of a walkable tree *)




(** *** The walk of the roots *)

Section Finite.
Variable dirs : gset string.
Hypothesis dirs_real :
  forall p r, filepath_EvalSymlinks p = inr r -> r ∈ dirs.


End Finite.





End WalkErrors.

(** ** The table file system *)

Module TableFSFacts.
Import TableFS.






End TableFSFacts.



(** ** [UnmarshalText] *)

(** C7 (the code departs from the claim).  The size [17179869185g] is a
    decimal integer with the suffix [g]; its byte count,
    17179869185 * 2^30 = 2^64 + 2^30, is far above 2^30, yet
    [UnmarshalText] succeeds and stores 2^30: the product is computed in
    [int64] and wraps around before the two bounds are checked. *)
Theorem UnmarshalText_wraps :
  UnmarshalText (mkBufferSize 0) (bytes_of_string "17179869185g")
  = (mkBufferSize 1073741824, None) /\
  (17179869185 * (1024 * 1024 * 1024) > 1024 * 1024 * 1024)%Z /\
  wrap64 (17179869185 * (1024 * 1024 * 1024)) = 1073741824%Z.
Proof. split; [vm_compute; reflexivity | split; [lia | reflexivity]]. Qed.

(** Where the product fits in [int64], the size is accepted exactly when
    it lies between 1024 and 2^30. *)
Section SizeFacts.
Local Open Scope Z_scope.

Lemma wrap64_small (z : Z) : minInt64 <= z <= maxInt64 -> wrap64 z = z.
Proof.
  unfold minInt64, maxInt64, wrap64; intros Hz.
  rewrite Z.mod_small by lia; lia.
Qed.

Lemma isDigit_value (c : byte) :
  isDigit c = true -> 0 <= Base64.byte_to_Z c - 48 <= 9.
Proof.
  unfold isDigit, byte_le, Base64.byte_to_Z; intros Hc.
  apply andb_true_iff in Hc; destruct Hc as [H0 H9].
  apply N.leb_le in H0, H9; cbn in H0, H9; lia.
Qed.

Lemma digitsValue_nonneg (ds : bytes) :
  forallb isDigit ds = true -> 0 <= digitsValue ds.
Proof.
  unfold digitsValue; intros Hd.
  assert (Hgen : forall acc, 0 <= acc ->
            0 <= fold_left (fun a c => a * 10 + (Base64.byte_to_Z c - 48)) ds acc).
  { induction ds as [| c ds IH]; intros acc Hacc; cbn in *; [exact Hacc |].
    apply andb_true_iff in Hd; destruct Hd as [Hc Hd].
    apply (IH Hd). pose proof (isDigit_value c Hc); lia. }
  apply Hgen; lia.
Qed.

Lemma spanDigits_app (ds rest : bytes) :
  forallb isDigit ds = true ->
  match rest with [] => True | c :: _ => isDigit c = false end ->
  spanDigits (ds ++ rest) = (ds, rest).
Proof.
  intros Hd Hr; induction ds as [| c ds IH]; cbn in *.
  - destruct rest as [| c rest]; [reflexivity | cbn; rewrite Hr; reflexivity].
  - apply andb_true_iff in Hd; destruct Hd as [Hc Hd].
    rewrite Hc, (IH Hd); reflexivity.
Qed.

Lemma ParseInt_digits (ds : bytes) :
  ds <> [] -> forallb isDigit ds = true -> digitsValue ds <= maxInt64 ->
  ParseInt (string_of_bytes ds) = (digitsValue ds, None).
Proof.
  intros Hne Hd Hv; unfold ParseInt, parseInt64, bytes_of_string, string_of_bytes.
  rewrite list_byte_of_string_of_list_byte.
  destruct ds as [| c ds]; [contradiction |].
  assert (Hsign : c <> "+"%byte /\ c <> "-"%byte).
  { cbn in Hd; apply andb_true_iff in Hd; destruct Hd as [Hc _].
    split; intros ->; discriminate Hc. }
  destruct Hsign as [Hplus Hminus].
  destruct c; try congruence; cbv beta iota; rewrite Hd; cbn [negb];
    match goal with
    | |- context [digitsValue ?l >? maxInt64] =>
        destruct (digitsValue l >? maxInt64) eqn:E; [lia | reflexivity]
    end.
Qed.

Lemma FindStringSubmatch_size (ds : bytes) (u : string) (m : Z) :
  In (u, m) sizeSuffixes -> ds <> [] -> forallb isDigit ds = true ->
  sizeRegexp_FindStringSubmatch (string_of_bytes (ds ++ bytes_of_string u))
  = [string_of_bytes (ds ++ bytes_of_string u); string_of_bytes ds; u].
Proof.
  intros Hu Hne Hd.
  unfold sizeRegexp_FindStringSubmatch, bytes_of_string, string_of_bytes.
  rewrite list_byte_of_string_of_list_byte.
  cbn in Hu; decompose [or] Hu; try contradiction;
    match goal with E : (_, _) = (u, m) |- _ => injection E as <- <- end;
    rewrite spanDigits_app by (try exact Hd; cbn; auto);
    (destruct ds as [| c ds]; [contradiction |]); reflexivity.
Qed.

Lemma UnmarshalText_in_range (b : BufferSize) (ds : bytes) (u : string) (m : Z) :
  In (u, m) sizeSuffixes ->
  ds <> [] -> forallb isDigit ds = true -> digitsValue ds * m <= maxInt64 ->
  UnmarshalText b (ds ++ bytes_of_string u) =
  let n := digitsValue ds * m in
  if n <? 1024 then (b, Some (LibError "less than 1K"))
  else if n >? 1024 * 1024 * 1024 then (b, Some (LibError "greater than 1G"))
  else (mkBufferSize n, None).
Proof.
  intros Hu Hne Hd Hfit.
  pose proof (digitsValue_nonneg ds Hd) as Hpos.
  assert (Hv : digitsValue ds <= maxInt64).
  { cbn in Hu; decompose [or] Hu; try contradiction;
      match goal with E : (_, _) = (u, m) |- _ => injection E as <- <- end; lia. }
  unfold UnmarshalText.
  rewrite (FindStringSubmatch_size ds u m Hu Hne Hd).
  cbn [length Nat.ltb Nat.leb nth].
  rewrite (ParseInt_digits ds Hne Hd Hv).
  cbn in Hu; decompose [or] Hu; try contradiction;
    match goal with E : (_, _) = (u, m) |- _ => injection E as <- <- end;
    match goal with
    | |- context [ToLower ?s] =>
        let l := eval vm_compute in (ToLower s) in
        change (ToLower s) with l
    end;
    cbn [String.length Nat.eqb String.eqb Ascii.eqb Bool.eqb orb];
    cbv zeta;
    rewrite ?wrap64_small by (unfold minInt64; lia);
    rewrite ?Z.mul_1_r; reflexivity.
Qed.

End SizeFacts.

(** ** The handshake ([recvFiles]) *)

Section HandshakeFacts.
Context `{ZL : Zlib} `{FS : FileSystem} `{PR : Process}.

Ltac run_monad := unfold bind, ret, emit, Fprintln_Stderr, WriteString_Stdout.

Ltac break_match :=
  match goal with
  | |- context [match ?x with _ => _ end] => destruct x eqn:?
  end.

(** The events of [recvFiles] are added to the events so far. *)
Lemma recvFiles_extends (args : TrzArgs) (tmuxMode : TmuxMode) (w : Z)
    (log : list Event) :
  recvFiles args tmuxMode w log
  = (fst (recvFiles args tmuxMode w []), log ++ snd (recvFiles args tmuxMode w [])).
Proof.
  unfold recvFiles; run_monad.
  repeat break_match; cbn; rewrite <- ?app_assoc; reflexivity.
Qed.

(** [recvFiles] writes nothing to the standard output by itself. *)
Lemma recvFiles_stdout (args : TrzArgs) (tmuxMode : TmuxMode) (w : Z) :
  stdoutWrites (snd (recvFiles args tmuxMode w [])) = [].
Proof.
  unfold recvFiles; run_monad.
  repeat break_match; reflexivity.
Qed.

(** Without the binary flag, no configuration sent asks for binary mode. *)
Lemma recvFiles_sendConfig (args : TrzArgs) (tmuxMode : TmuxMode) (w : Z) :
  Binary (TrzArgs_Args args) = false ->
  forall a act esc m pw,
    In (ESendConfig a act esc m pw) (snd (recvFiles args tmuxMode w [])) ->
    Binary a = false.
Proof.
  intros Hb a act esc m pw; unfold recvFiles; run_monad.
  rewrite Hb; cbn [andb].
  repeat break_match; cbn; intros Hin;
    repeat (destruct Hin as [Hin | Hin]; [try discriminate Hin |]);
    try contradiction; injection Hin as <-; assumption.
Qed.

(** C4.  After an action with [confirm] true: when binary mode was asked
    for and the peer does not support it, the flag is cleared and the
    handshake goes on exactly as if it had not been asked for, the
    configuration being the next thing sent (unless the directory check
    fails); when a directory transfer was asked for and the peer does not
    support it, [recvFiles] fails with [The client doesn't support transfer
    directory] and nothing has been sent after the action was received. *)
Theorem recvFiles_capabilities (args : TrzArgs) (tmuxMode : TmuxMode) (w : Z)
    (action : TransferAction) :
  transfer_recvAction = inr action -> Confirm action = true ->
  (Binary (TrzArgs_Args args) = true -> SupportBinary action = false ->
   recvFiles args tmuxMode w [] = recvFiles (set_Binary false args) tmuxMode w [] /\
   Binary (TrzArgs_Args (fst (fst (recvFiles args tmuxMode w [])))) = false /\
   (Directory (TrzArgs_Args args) && negb (SupportDirectory action) = false ->
    (exists rest,
       snd (recvFiles args tmuxMode w [])
       = ERecvAction
         :: ESendConfig (TrzArgs_Args (set_Binary false args)) action
              (getEscapeChars (Escape (TrzArgs_Args args))) tmuxMode w
         :: rest) /\
    (forall names s,
       transfer_sendConfig (TrzArgs_Args (set_Binary false args)) action
         (getEscapeChars (Escape (TrzArgs_Args args))) tmuxMode w = None ->
       transfer_recvFiles (Path args) = inr names ->
       transfer_recvExit = inr s ->
       snd (fst (recvFiles args tmuxMode w [])) = None))) /\
  (Directory (TrzArgs_Args args) = true -> SupportDirectory action = false ->
   snd (fst (recvFiles args tmuxMode w [])) = Some unsupportedDirectory /\
   snd (recvFiles args tmuxMode w []) = [ERecvAction]).
Proof.
  intros Hact Hconf; split.
  - intros Hb Hsb.
    unfold recvFiles; run_monad; rewrite Hact, Hconf, Hb, Hsb; cbn.
    split; [reflexivity |]; split.
    + repeat break_match; reflexivity.
    + intros ->; split.
      * repeat break_match; eexists; reflexivity.
      * intros names s Hc Hf He; cbn in Hc, Hf; rewrite Hc, Hf, He; reflexivity.
  - intros Hd Hsd.
    unfold recvFiles; run_monad; rewrite Hact, Hconf, Hsd; cbn.
    destruct (Binary (TrzArgs_Args args) && negb (SupportBinary action));
      cbn; rewrite Hd; split; reflexivity.
Qed.

End HandshakeFacts.

Lemma recvFiles_capabilities_witness :
  let PR := Session.process "/home/u" true true false None false false in
  snd (fst (recvFiles (ZL := StoredZlib.stored) (PR := PR)
              (Session.args "/home/u" true true) NoTmux (-1) []))
  = Some (unsupportedDirectory (ZL := StoredZlib.stored)) /\
  snd (recvFiles (ZL := StoredZlib.stored) (PR := PR)
         (Session.args "/home/u" true true) NoTmux (-1) [])
  = [ERecvAction].
Proof.
  intros PR.
  apply (proj2 (recvFiles_capabilities (ZL := StoredZlib.stored) (PR := PR)
                  (Session.args "/home/u" true true) NoTmux (-1)
                  (mkTransferAction "go" "1.0.0" true LF 1 false false)
                  eq_refl eq_refl));
    reflexivity.
Defined.

(** ** The entry point ([TrzMain]) *)

Section MainFacts.
Context `{ZL : Zlib} `{FS : FileSystem} `{PR : Process}.

Ltac run_monad := unfold bind, ret, emit, Fprintln_Stderr, WriteString_Stdout.

Lemma bind_emit {A : Type} (e : Event) (k : unit -> M A) (log : list Event) :
  bind (emit e) k log = k tt (log ++ [e]).
Proof. reflexivity. Qed.

Lemma bind_ret {A B : Type} (a : A) (k : A -> M B) (log : list Event) :
  bind (ret a) k log = k a log.
Proof. reflexivity. Qed.

Lemma bind_bind {A B C : Type} (m : M A) (f : A -> M B) (k : B -> M C)
    (log : list Event) :
  bind (bind m f) k log = bind m (fun x => bind (f x) k) log.
Proof. unfold bind; destruct (m log); reflexivity. Qed.

Lemma stdoutWrites_app (l1 l2 : list Event) :
  stdoutWrites (l1 ++ l2) = stdoutWrites l1 ++ stdoutWrites l2.
Proof.
  induction l1 as [| e l1 IH]; [reflexivity |].
  destruct e; cbn; rewrite IH; reflexivity.
Qed.

Lemma isMarker_marker (mode version uniqueID : string) :
  isMarker (marker mode version uniqueID) = true.
Proof. reflexivity. Qed.

(** C9.  A failure of the checks made before the handshake (the destination
    cannot be resolved, does not exist, cannot be examined, is not a
    directory or is not writable, or the probe of tmux fails) makes
    [TrzMain] print the error on the standard error and return a negative
    code; that line is all the program has done: no initiation marker, no
    raw mode, no handshake. *)
Theorem TrzMain_validation_failure (err : error) (code : Z) :
  ValidationFailure err code ->
  TrzMain [] = (Return code, [EStderr (error_Error err +:+ LF)]) /\
  (code < 0)%Z.
Proof.
  intros Hv; split; [| destruct Hv; lia].
  unfold TrzMain; run_monad.
  destruct Hv as [err Ha | path err Ha Hs He | path err Ha Hs He
                 | path info Ha Hs Hd | path info e Ha Hs Hd Hw
                 | path m f w err Ha Hw Ht]; rewrite Ha; cbn [set_Path Path].
  - reflexivity.
  - unfold checkPathWritable; rewrite Hs, He; reflexivity.
  - unfold checkPathWritable; rewrite Hs, He; reflexivity.
  - unfold checkPathWritable; rewrite Hs, Hd; reflexivity.
  - unfold checkPathWritable; rewrite Hs, Hd, Hw; reflexivity.
  - rewrite Hw, Ht; reflexivity.
Qed.



Lemma bind_recvFiles {B : Type} (args : TrzArgs) (tmuxMode : TmuxMode) (w : Z)
    (k : TrzArgs * option error -> M B) (log : list Event) :
  bind (recvFiles args tmuxMode w) k log
  = k (fst (recvFiles args tmuxMode w []))
      (log ++ snd (recvFiles args tmuxMode w [])).
Proof. unfold bind; rewrite recvFiles_extends; reflexivity. Qed.

(** The events of a run that goes past the checks. *)
Lemma TrzMain_run (path : string) (tmuxMode : TmuxMode)
    (realStdout : File) (tmuxPaneWidth : Z) :
  validated path tmuxMode realStdout tmuxPaneWidth ->
  let args := set_Path path arg_MustParse in
  snd (TrzMain [])
  = noticeEvents args tmuxMode ++ platformEvents tmuxMode
    ++ [EStdout
          (marker (if Directory (TrzArgs_Args arg_MustParse) then "D" else "R")
                  kTrzszVersion
                  (FormatInt (Z.rem time_Now_UnixMilli 100000000000)
                   +:+ platformSuffix tmuxMode));
        EStdoutSync; EMakeRaw]
    ++ handshakeEvents (handshakeArgs args tmuxMode) tmuxMode realStdout
         tmuxPaneWidth.
Proof.
  intros (Ha & Hw & Ht) args; subst args.
  unfold TrzMain, platformSuffix, noticeEvents, platformEvents, cursorWrites,
    handshakeEvents, handshakeArgs, resetEvents;
    rewrite Ha; cbn [set_Path Path].
  rewrite Hw, Ht.
  generalize (FormatInt (Z.rem time_Now_UnixMilli 100000000000)); intros uid.
  generalize kTrzszVersion; intros version.
  destruct arg_MustParse as [[q o b e d bs t] p].
  destruct b, tmuxMode, isWindows, d;
    cbn [andb orb negb TmuxMode_eqb TrzArgs_Args Binary Directory set_Binary
         set_Path Path Quiet Overwrite Escape Bufsize Timeout];
    try destruct enableVirtualTerminal;
    try destruct ((0 <? getTerminalColumns)%Z && (getTerminalColumns <? 40)%Z);
    destruct term_MakeRaw;
    unfold Fprintln_Stderr, WriteString_Stdout;
    repeat (first [rewrite bind_bind | rewrite bind_emit | rewrite bind_ret
                  | rewrite bind_recvFiles];
            cbn [andb negb app TrzArgs_Args Binary Directory set_Binary
                 set_Path Path Quiet Overwrite Escape Bufsize Timeout]);
    try reflexivity.
  all: match goal with
       | |- context [snd (fst (recvFiles ?a ?m ?w []))] =>
           destruct (snd (fst (recvFiles a m w [])))
       end.
  all: repeat (first [rewrite bind_bind | rewrite bind_emit | rewrite bind_ret];
               cbn [app]).
  all: unfold ret; cbn [snd map app]; rewrite <- ?app_assoc; reflexivity.
Qed.

Lemma handshakeArgs_Binary (args : TrzArgs) (tmuxMode : TmuxMode) :
  tmuxMode <> NoTmux \/ isWindows = true ->
  Binary (TrzArgs_Args (handshakeArgs args tmuxMode)) = false.
Proof.
  intros Hmode; unfold handshakeArgs.
  destruct (Binary (TrzArgs_Args args)) eqn:Hb; [| exact Hb].
  destruct Hmode as [Hm | ->].
  - destruct tmuxMode; [contradiction | reflexivity | reflexivity].
  - rewrite orb_true_r; reflexivity.
Qed.

Lemma stdoutWrites_map (l : list string) : stdoutWrites (map EStdout l) = l.
Proof. induction l as [| s l IH]; cbn; [| rewrite IH]; reflexivity. Qed.

Lemma stdoutWrites_handshakeEvents (args : TrzArgs) (tmuxMode : TmuxMode)
    (realStdout : File) (w : Z) :
  stdoutWrites (handshakeEvents args tmuxMode realStdout w) = [].
Proof.
  unfold handshakeEvents, resetEvents.
  destruct term_MakeRaw; cbn [stdoutWrites app];
    rewrite ?stdoutWrites_app, ?recvFiles_stdout;
    destruct isWindows; try destruct enableVirtualTerminal;
    try destruct (snd (fst (recvFiles args tmuxMode w []))); reflexivity.
Qed.

(** C10.  In a run that goes past the checks with tmux active (normal or
    control mode) or on Windows, binary mode is off: the handshake is run
    with the binary flag cleared and every configuration it sends has the
    flag cleared; and when the flag [-b] was given, the first thing written
    to the standard output is the notice of the switch to base64 mode,
    before the initiation marker, which is the last. *)
Theorem TrzMain_binary_disabled (path : string) (tmuxMode : TmuxMode)
    (realStdout : File) (tmuxPaneWidth : Z) :
  validated path tmuxMode realStdout tmuxPaneWidth ->
  tmuxMode <> NoTmux \/ isWindows = true ->
  (exists args before,
     Binary (TrzArgs_Args args) = false /\
     snd (TrzMain [])
     = before ++ handshakeEvents args tmuxMode realStdout tmuxPaneWidth /\
     forall a act esc m pw, ~ In (ESendConfig a act esc m pw) before) /\
  (forall a act esc m pw,
     In (ESendConfig a act esc m pw) (snd (TrzMain [])) -> Binary a = false) /\
  (Binary (TrzArgs_Args arg_MustParse) = true ->
   stdoutWrites (snd (TrzMain []))
   = switchNotice tmuxMode
     :: cursorWrites tmuxMode
     ++ [marker (if Directory (TrzArgs_Args arg_MustParse) then "D" else "R")
                kTrzszVersion
                (FormatInt (Z.rem time_Now_UnixMilli 100000000000)
                 +:+ platformSuffix tmuxMode)]).
Proof.
  intros Hv Hmode.
  pose proof (TrzMain_run _ _ _ _ Hv) as Hrun; cbv zeta in Hrun.
  set (args := set_Path path arg_MustParse) in *.
  pose proof (handshakeArgs_Binary args tmuxMode Hmode) as Hoff.
  assert (Hbefore : forall a act esc m pw,
    ~ In (ESendConfig a act esc m pw)
         (noticeEvents args tmuxMode ++ platformEvents tmuxMode
          ++ [EStdout
                (marker (if Directory (TrzArgs_Args arg_MustParse)
                         then "D" else "R")
                        kTrzszVersion
                        (FormatInt (Z.rem time_Now_UnixMilli 100000000000)
                         +:+ platformSuffix tmuxMode));
              EStdoutSync; EMakeRaw])).
  { intros a act esc m pw.
    unfold noticeEvents, platformEvents, cursorWrites.
    destruct (Binary (TrzArgs_Args args)), (TmuxMode_eqb tmuxMode NoTmux),
      (TmuxMode_eqb tmuxMode TmuxNormalMode), isWindows; cbn;
      intros Hin; decompose [or] Hin; try discriminate; contradiction. }
  split; [| split].
  - exists (handshakeArgs args tmuxMode); eexists; split; [exact Hoff |].
    split; [rewrite Hrun, !app_assoc; reflexivity |].
    intros a act esc m pw; rewrite <- !app_assoc; apply Hbefore.
  - intros a act esc m pw; rewrite Hrun, !app_assoc, in_app_iff.
    intros [Hin | Hin]; [rewrite <- !app_assoc in Hin;
                         exfalso; exact (Hbefore _ _ _ _ _ Hin) |].
    unfold handshakeEvents, resetEvents in Hin.
    destruct term_MakeRaw.
    + destruct isWindows; try destruct enableVirtualTerminal; cbn in Hin;
        decompose [or] Hin; try discriminate; contradiction.
    + rewrite !in_app_iff in Hin.
      destruct Hin as [Hin | [Hin | [Hin | Hin]]].
      * cbn in Hin; decompose [or] Hin; try discriminate; contradiction.
      * exact (recvFiles_sendConfig _ _ _ Hoff _ _ _ _ _ Hin).
      * destruct (snd (fst (recvFiles _ _ _ []))); cbn in Hin;
          decompose [or] Hin; try discriminate; contradiction.
      * destruct isWindows; try destruct enableVirtualTerminal; cbn in Hin;
          decompose [or] Hin; try discriminate; contradiction.
  - intros Hb; rewrite Hrun, !stdoutWrites_app, stdoutWrites_handshakeEvents.
    unfold noticeEvents, platformEvents, switchNotice.
    change (Binary (TrzArgs_Args args)) with (Binary (TrzArgs_Args arg_MustParse)).
    rewrite Hb, !stdoutWrites_app, stdoutWrites_map, app_nil_r.
    destruct Hmode as [Hm | Hwin].
    + destruct tmuxMode; [contradiction | |];
        destruct isWindows; reflexivity.
    + rewrite Hwin; destruct tmuxMode; reflexivity.
Qed.

End MainFacts.

Lemma TrzMain_validation_failure_witness :
  TrzMain (ZL := StoredZlib.stored) (FS := Session.files true)
    (PR := Session.process "/home/x" true false false None true true) []
  = (Return (-2)%Z, [EStderr ("No such directory: /home/x" +:+ LF)]) /\
  (-2 < 0)%Z.
Proof.
  apply (TrzMain_validation_failure (ZL := StoredZlib.stored)
           (FS := Session.files true)
           (PR := Session.process "/home/x" true false false None true true)
           _ _
           (NoSuchDirectory (ZL := StoredZlib.stored) (FS := Session.files true)
              (PR := Session.process "/home/x" true false false None true true)
              "/home/x" (PathError "stat" "/home/x" ENOENT)
              eq_refl eq_refl eq_refl)).
Defined.


Lemma TrzMain_binary_disabled_witness :
  let PR := Session.process "/home/u" true false false
              (Some ("/dev/pts/1:0:80" +:+ LF)) true true in
  (forall a act esc m pw,
     In (ESendConfig a act esc m pw)
        (snd (TrzMain (ZL := StoredZlib.stored) (FS := Session.files true)
                (PR := PR) [])) ->
     Binary a = false) /\
  stdoutWrites
    (snd (TrzMain (ZL := StoredZlib.stored) (FS := Session.files true)
            (PR := PR) []))
  = [binaryTmuxNotice;
     LF +:+ ESCs +:+ "[1A" +:+ ESCs +:+ "[0J";
     marker "R" "1.0.0" "9876543210020"].
Proof.
  intros PR.
  destruct (TrzMain_binary_disabled (ZL := StoredZlib.stored)
              (FS := Session.files true) (PR := PR)
              "/home/u" TmuxNormalMode (TtyFile "/dev/pts/1") 80)
    as (_ & Hcfg & Hout).
  - split; [| split]; vm_compute; reflexivity.
  - left; discriminate.
  - split; [exact Hcfg | exact (Hout eq_refl)].
Defined.
